(** * OneFlow boxing core and actor: a shallow embedding

    The development follows two translation units of the repository:

    - [hierarchical_sub_task_graph_builder.cpp] (the hierarchy reducer
      [ParallelAxesReduce], [CollaborativeParallelAxesReduce],
      [InOutParallelAxesReduce], the rank-1 delegation
      [Build1dParallelHierarchySubTskGph], the constructor of
      [HierarchicalSubTskGphBuilder] and its [Build] method);
    - [actor/actor.cpp] ([Actor::Init] and [Actor::WardKernel]).

    Protobuf repeated fields and [DimVector] are lists, [int64_t] is [Z]
    with the two's complement wrap written out, a C++ function with
    out-parameters takes their initial content and returns their final
    content, and every call that can end the process (a failed [CHECK],
    [LOG(FATAL)], an out-of-range access) or hand a [Maybe] error to the
    caller returns an [outcome]. *)

From stdpp Require Import gmap strings list pretty.
From Stdlib Require Import ZArith Lia.

Local Open Scope Z_scope.

(** ** Outcomes of a call *)

(** Why a call did not come back to its caller. *)
Inductive Fatal :=
  | OutOfRange      (* [.at()] / repeated-field access outside the container *)
  | CheckFailed     (* a glog [CHECK_*] that does not hold *)
  | LogFatal.       (* [LOG(FATAL)] *)

(** The error values a [Maybe<T>] can carry back to the caller. *)
Inductive Error :=
  | BoxingNotSupportedError
  | OtherError (msg : string).

Inductive outcome (A : Type) :=
  | Returns (a : A)          (* normal return *)
  | MaybeError (e : Error)   (* [Maybe] holding an error, returned to the caller *)
  | Aborts (f : Fatal).      (* the call never returns to its caller *)
Arguments Returns {A} a.
Arguments MaybeError {A} e.
Arguments Aborts {A} f.

#[global] Instance outcome_ret : MRet outcome := @Returns.
#[global] Instance outcome_bind : MBind outcome := λ A B k m,
  match m with
  | Returns a => k a
  | MaybeError e => MaybeError e
  | Aborts f => Aborts f
  end.

#[global] Instance Fatal_eq_dec : EqDecision Fatal.
Proof. solve_decision. Defined.
#[global] Instance Error_eq_dec : EqDecision Error.
Proof. solve_decision. Defined.

(** [FOR_RANGE(type, i, begin, end)]: [for (type i = begin; i < end; ++i)],
    the body threading the variables it assigns. *)
Fixpoint for_loop {St : Type} (body : nat → St → outcome St) (i n : nat) (st : St)
  : outcome St :=
  match n with
  | O => Returns st
  | S n' => st' ← body i st; for_loop body (S i) n' st'
  end.

Definition FOR_RANGE {St : Type} (begin end_ : nat) (body : nat → St → outcome St)
  (st : St) : outcome St :=
  for_loop body begin (end_ - begin)%nat st.

(** ** 64-bit signed arithmetic *)

Definition INT64_MIN : Z := - 2 ^ 63.
Definition INT64_MAX : Z := 2 ^ 63 - 1.

Definition wrap64 (z : Z) : Z := (z + 2 ^ 63) `mod` 2 ^ 64 - 2 ^ 63.

Definition in_int64 (z : Z) : Prop := INT64_MIN ≤ z ≤ INT64_MAX.

(** [a *= b] on [int64_t]. *)
Definition int64_mul (a b : Z) : Z := wrap64 (a * b).

(** ** Data model of the boxing translation unit *)

Module Boxing.

(** [SbpParallel]: the annotation of one hierarchy axis; [operator==]
    compares the alternative and, for a split, its axis. *)
Inductive SbpParallel :=
  | split_parallel (axis : Z)
  | broadcast_parallel
  | partial_sum_parallel.

#[global] Instance SbpParallel_eq_dec : EqDecision SbpParallel.
Proof. solve_decision. Defined.

(** [ParallelDistribution]: [repeated SbpParallel sbp_parallel]. *)
Abbreviation ParallelDistribution := (list SbpParallel) (only parsing).

(** [parallel_distribution.sbp_parallel(i)]. *)
Definition sbp_parallel (d : ParallelDistribution) (i : nat) : outcome SbpParallel :=
  match d !! i with
  | Some s => Returns s
  | None => Aborts OutOfRange
  end.

(** [*d->add_sbp_parallel() = s]. *)
Definition add_sbp_parallel (d : ParallelDistribution) (s : SbpParallel)
  : ParallelDistribution := d ++ [s].

Abbreviation DimVector := (list Z) (only parsing).

(** [Shape]: its [DimVector]. *)
Abbreviation Shape := (list Z) (only parsing).

Definition NumAxes (s : Shape) : nat := length s.

(** [shape.At(i)]. *)
Definition At (s : Shape) (i : nat) : outcome Z :=
  match s !! i with
  | Some d => Returns d
  | None => Aborts OutOfRange
  end.

Definition push_back (v : DimVector) (x : Z) : DimVector := v ++ [x].

(** [v.back() *= x]; every vector it is applied to has had a [push_back]. *)
Definition back_mul (v : DimVector) (x : Z) : DimVector :=
  alter (λ b, int64_mul b x) (pred (length v)) v.

(** Modelled from the spec: [ParallelConf] is the protobuf message of a
    placement, declared outside the translation unit.  The spec's Parallel
    Descriptor is a "device hierarchy + identity of the physical device
    group"; the group is the message's device tag and device names. *)
Record ParallelConf := mkParallelConf {
  device_tag : string;
  device_name : list string;
  conf_hierarchy : Shape
}.

(** [Shape(v).ToProto(conf.mutable_hierarchy())]. *)
Definition set_hierarchy (conf : ParallelConf) (v : DimVector) : ParallelConf :=
  {| device_tag := device_tag conf;
     device_name := device_name conf;
     conf_hierarchy := v |}.

(** Modelled from the spec: [ParallelDesc] is declared outside the
    translation unit; it is the descriptor built from a [ParallelConf],
    giving back that configuration and its hierarchy. *)
Record ParallelDesc := mkParallelDesc {
  parallel_conf : ParallelConf
}.

Definition hierarchy (pd : ParallelDesc) : Shape := conf_hierarchy (parallel_conf pd).

#[global] Instance ParallelConf_eq_dec : EqDecision ParallelConf.
Proof. solve_decision. Defined.
#[global] Instance ParallelDesc_eq_dec : EqDecision ParallelDesc.
Proof. solve_decision. Defined.

(** *** The hierarchy reducer *)

Definition ParallelAxesReduce
    (parallel_desc : ParallelDesc)
    (parallel_distribution : ParallelDistribution)
    (return_parallel_distribution : ParallelDistribution)
  : outcome (ParallelDesc * ParallelDistribution) :=
  let hierarchy := hierarchy parallel_desc in
  let reduced_hierarchy : DimVector := [] in
  h0 ← At hierarchy 0;
  let reduced_hierarchy := push_back reduced_hierarchy h0 in
  s0 ← sbp_parallel parallel_distribution 0;
  let return_parallel_distribution := add_sbp_parallel return_parallel_distribution s0 in
  '(reduced_hierarchy, return_parallel_distribution) ←
    FOR_RANGE 1 (NumAxes hierarchy)
      (λ i '(reduced_hierarchy, return_parallel_distribution),
         s_i ← sbp_parallel parallel_distribution i;
         s_p ← sbp_parallel parallel_distribution (i - 1);
         if decide (s_i = s_p) then
           h_i ← At hierarchy i;
           Returns (back_mul reduced_hierarchy h_i, return_parallel_distribution)
         else
           h_i ← At hierarchy i;
           s_i' ← sbp_parallel parallel_distribution i;
           Returns (push_back reduced_hierarchy h_i,
                    add_sbp_parallel return_parallel_distribution s_i'))
      (reduced_hierarchy, return_parallel_distribution);
  let reduced_parallel_conf := parallel_conf parallel_desc in
  let reduced_parallel_conf := set_hierarchy reduced_parallel_conf reduced_hierarchy in
  Returns (mkParallelDesc reduced_parallel_conf, return_parallel_distribution).

Definition CollaborativeParallelAxesReduce
    (in_parallel_desc out_parallel_desc : ParallelDesc)
    (in_parallel_distribution out_parallel_distribution : ParallelDistribution)
    (in_return_parallel_distribution out_return_parallel_distribution
       : ParallelDistribution)
  : outcome (ParallelDesc * ParallelDesc * ParallelDistribution * ParallelDistribution) :=
  let in_hierarchy := hierarchy in_parallel_desc in
  let out_hierarchy := hierarchy out_parallel_desc in
  if decide (NumAxes in_hierarchy = NumAxes out_hierarchy) then
    let in_reduced_hierarchy : DimVector := [] in
    in_h0 ← At in_hierarchy 0;
    let in_reduced_hierarchy := push_back in_reduced_hierarchy in_h0 in
    in_s0 ← sbp_parallel in_parallel_distribution 0;
    let in_return_parallel_distribution :=
      add_sbp_parallel in_return_parallel_distribution in_s0 in
    let out_reduced_hierarchy : DimVector := [] in
    out_h0 ← At out_hierarchy 0;
    let out_reduced_hierarchy := push_back out_reduced_hierarchy out_h0 in
    out_s0 ← sbp_parallel out_parallel_distribution 0;
    let out_return_parallel_distribution :=
      add_sbp_parallel out_return_parallel_distribution out_s0 in
    '(in_reduced_hierarchy, out_reduced_hierarchy,
      in_return_parallel_distribution, out_return_parallel_distribution) ←
      FOR_RANGE 1 (NumAxes in_hierarchy)
        (λ i '(in_reduced_hierarchy, out_reduced_hierarchy,
               in_return_parallel_distribution, out_return_parallel_distribution),
           in_s_i ← sbp_parallel in_parallel_distribution i;
           in_s_p ← sbp_parallel in_parallel_distribution (i - 1);
           if decide (in_s_i = in_s_p) then
             out_s_i ← sbp_parallel out_parallel_distribution i;
             out_s_p ← sbp_parallel out_parallel_distribution (i - 1);
             if decide (out_s_i = out_s_p) then
               in_h_i ← At in_hierarchy i;
               let in_reduced_hierarchy := back_mul in_reduced_hierarchy in_h_i in
               out_h_i ← At out_hierarchy i;
               let out_reduced_hierarchy := back_mul out_reduced_hierarchy out_h_i in
               Returns (in_reduced_hierarchy, out_reduced_hierarchy,
                        in_return_parallel_distribution,
                        out_return_parallel_distribution)
             else
               in_h_i ← At in_hierarchy i;
               in_s_i' ← sbp_parallel in_parallel_distribution i;
               out_h_i ← At out_hierarchy i;
               out_s_i' ← sbp_parallel out_parallel_distribution i;
               Returns (push_back in_reduced_hierarchy in_h_i,
                        push_back out_reduced_hierarchy out_h_i,
                        add_sbp_parallel in_return_parallel_distribution in_s_i',
                        add_sbp_parallel out_return_parallel_distribution out_s_i')
           else
             (* [&&] does not evaluate its right operand *)
             in_h_i ← At in_hierarchy i;
             in_s_i' ← sbp_parallel in_parallel_distribution i;
             out_h_i ← At out_hierarchy i;
             out_s_i' ← sbp_parallel out_parallel_distribution i;
             Returns (push_back in_reduced_hierarchy in_h_i,
                      push_back out_reduced_hierarchy out_h_i,
                      add_sbp_parallel in_return_parallel_distribution in_s_i',
                      add_sbp_parallel out_return_parallel_distribution out_s_i'))
        (in_reduced_hierarchy, out_reduced_hierarchy,
         in_return_parallel_distribution, out_return_parallel_distribution);
    let in_reduced_parallel_conf := parallel_conf in_parallel_desc in
    let in_reduced_parallel_conf :=
      set_hierarchy in_reduced_parallel_conf in_reduced_hierarchy in
    let in_return_parallel_desc := mkParallelDesc in_reduced_parallel_conf in
    let out_reduced_parallel_conf := parallel_conf out_parallel_desc in
    let out_reduced_parallel_conf :=
      set_hierarchy out_reduced_parallel_conf out_reduced_hierarchy in
    let out_return_parallel_desc := mkParallelDesc out_reduced_parallel_conf in
    Returns (in_return_parallel_desc, out_return_parallel_desc,
             in_return_parallel_distribution, out_return_parallel_distribution)
  else Aborts CheckFailed.

Definition InOutParallelAxesReduce
    (in_parallel_desc out_parallel_desc : ParallelDesc)
    (in_parallel_distribution out_parallel_distribution : ParallelDistribution)
    (return_in_parallel_distribution return_out_parallel_distribution
       : ParallelDistribution)
  : outcome (ParallelDesc * ParallelDesc * ParallelDistribution * ParallelDistribution) :=
  let in_hierarchy_axes := NumAxes (hierarchy in_parallel_desc) in
  let out_hierarchy_axes := NumAxes (hierarchy out_parallel_desc) in
  if decide (in_hierarchy_axes = 1%nat ∧ out_hierarchy_axes = 1%nat) then
    Returns (in_parallel_desc, out_parallel_desc,
             in_parallel_distribution, out_parallel_distribution)
  else if decide (in_hierarchy_axes ≠ out_hierarchy_axes) then
    '(return_in_parallel_desc, return_in_parallel_distribution) ←
      ParallelAxesReduce in_parallel_desc in_parallel_distribution
        return_in_parallel_distribution;
    '(return_out_parallel_desc, return_out_parallel_distribution) ←
      ParallelAxesReduce out_parallel_desc out_parallel_distribution
        return_out_parallel_distribution;
    Returns (return_in_parallel_desc, return_out_parallel_desc,
             return_in_parallel_distribution, return_out_parallel_distribution)
  else
    CollaborativeParallelAxesReduce in_parallel_desc out_parallel_desc
      in_parallel_distribution out_parallel_distribution
      return_in_parallel_distribution return_out_parallel_distribution.

(** *** Sub-task-graph builders *)

(** The builder objects the constructor allocates; a chain owns the list
    of builders it was given. *)
#[warnings="-register-all"]
Inductive SubTskGphBuilder :=
  | OneToOneSubTskGphBuilder
  | B21SubTskGphBuilder
  | CollectiveBoxingSubTskGphBuilder
  | SliceBoxingSubTskGphBuilder
  | NaiveB2BSubTskGphBuilder
  | NaiveB2PSubTskGphBuilder
  | ChainSubTskGphBuilder (builders : list SubTskGphBuilder).

(** The part of [ResourceDesc] the constructor reads. *)
Record ResourceDesc := mkResourceDesc {
  nccl_use_compute_stream : bool
}.

(** [builders_] of a chain. *)
Definition chain_builders (b : SubTskGphBuilder) : list SubTskGphBuilder :=
  match b with
  | ChainSubTskGphBuilder builders => builders
  | _ => []
  end.

Record HierarchicalSubTskGphBuilder := mkHierarchicalSubTskGphBuilder {
  sub_tsk_gph_builder_ : SubTskGphBuilder
}.

Definition emplace_back (builders : list SubTskGphBuilder) (b : SubTskGphBuilder)
  : list SubTskGphBuilder := builders ++ [b].

(** The constructor; [global_resource_desc] is what
    [Global<ResourceDesc, ForSession>::Get()] points to when it runs. *)
Definition HierarchicalSubTskGphBuilder_new (global_resource_desc : ResourceDesc)
  : HierarchicalSubTskGphBuilder :=
  let builders : list SubTskGphBuilder := [] in
  let builders := emplace_back builders OneToOneSubTskGphBuilder in
  let builders := emplace_back builders B21SubTskGphBuilder in
  let builders :=
    if negb (nccl_use_compute_stream global_resource_desc)
    then emplace_back builders CollectiveBoxingSubTskGphBuilder
    else builders in
  let builders := emplace_back builders SliceBoxingSubTskGphBuilder in
  let builders := emplace_back builders NaiveB2BSubTskGphBuilder in
  let builders := emplace_back builders NaiveB2PSubTskGphBuilder in
  {| sub_tsk_gph_builder_ := ChainSubTskGphBuilder builders |}.

Section Build.

(** [Graph] is everything a builder mutates through its pointer
    arguments: the [SubTskGphBuilderCtx], [sorted_out_tasks] and
    [sorted_ctrl_tasks]. *)
Context {Graph SubTskGphBuilderStatus TaskNodes LogicalBlobId BlobDesc : Type}.

(** The by-value and by-const-reference arguments of
    [SubTskGphBuilder::Build]. *)
Record BuildArgs := mkBuildArgs {
  arg_sorted_in_tasks : TaskNodes;
  arg_in_parallel_desc : ParallelDesc;
  arg_out_parallel_desc : ParallelDesc;
  arg_lbi : LogicalBlobId;
  arg_logical_blob_desc : BlobDesc;
  arg_in_sbp_parallel : SbpParallel;
  arg_out_sbp_parallel : SbpParallel;
  arg_time_shape : Shape
}.

(** The virtual [SubTskGphBuilder::Build] of the builders above, defined
    in their own translation units. *)
Variable virtual_Build :
  SubTskGphBuilder → BuildArgs → Graph → outcome SubTskGphBuilderStatus * Graph.

(** What the statement [UNIMPLEMENTED();] does: the macro is defined in
    a header outside the translation unit. *)
Variable UNIMPLEMENTED : outcome unit.

(** [TRY] hands the callee's [Maybe] on as it is. *)
Definition Build1dParallelHierarchySubTskGph
    (sub_tsk_gph_builder : SubTskGphBuilder)
    (sorted_in_tasks : TaskNodes)
    (in_parallel_desc out_parallel_desc : ParallelDesc)
    (lbi : LogicalBlobId) (logical_blob_desc : BlobDesc)
    (in_parallel_distribution out_parallel_distribution : ParallelDistribution)
    (time_shape : Shape) (g : Graph)
  : outcome SubTskGphBuilderStatus * Graph :=
  match sbp_parallel in_parallel_distribution 0 with
  | Returns in_sbp =>
      match sbp_parallel out_parallel_distribution 0 with
      | Returns out_sbp =>
          let boxing_builder_status :=
            virtual_Build sub_tsk_gph_builder
              {| arg_sorted_in_tasks := sorted_in_tasks;
                 arg_in_parallel_desc := in_parallel_desc;
                 arg_out_parallel_desc := out_parallel_desc;
                 arg_lbi := lbi;
                 arg_logical_blob_desc := logical_blob_desc;
                 arg_in_sbp_parallel := in_sbp;
                 arg_out_sbp_parallel := out_sbp;
                 arg_time_shape := time_shape |} g in
          boxing_builder_status
      | MaybeError e => (MaybeError e, g)
      | Aborts f => (Aborts f, g)
      end
  | MaybeError e => (MaybeError e, g)
  | Aborts f => (Aborts f, g)
  end.

Definition Build
    (this : HierarchicalSubTskGphBuilder)
    (sorted_in_tasks : TaskNodes)
    (in_parallel_desc out_parallel_desc : ParallelDesc)
    (lbi : LogicalBlobId) (logical_blob_desc : BlobDesc)
    (in_parallel_distribution out_parallel_distribution : ParallelDistribution)
    (time_shape : Shape) (g : Graph)
  : outcome SubTskGphBuilderStatus * Graph :=
  let reduced_in_parallel_distribution : ParallelDistribution := [] in
  let reduced_out_parallel_distribution : ParallelDistribution := [] in
  match InOutParallelAxesReduce in_parallel_desc out_parallel_desc
          in_parallel_distribution out_parallel_distribution
          reduced_in_parallel_distribution reduced_out_parallel_distribution with
  | Returns (reduced_in_parallel_desc, reduced_out_parallel_desc,
             reduced_in_parallel_distribution, reduced_out_parallel_distribution) =>
      let reduced_in_parallel_hierarchy := hierarchy reduced_in_parallel_desc in
      let reduced_out_parallel_hierarchy := hierarchy reduced_out_parallel_desc in
      if decide (NumAxes reduced_in_parallel_hierarchy = 1%nat
                 ∧ NumAxes reduced_out_parallel_hierarchy = 1%nat) then
        Build1dParallelHierarchySubTskGph (sub_tsk_gph_builder_ this)
          sorted_in_tasks in_parallel_desc out_parallel_desc lbi logical_blob_desc
          reduced_in_parallel_distribution reduced_out_parallel_distribution
          time_shape g
      else
        match UNIMPLEMENTED with
        | Returns _ => (MaybeError BoxingNotSupportedError, g)
        | MaybeError e => (MaybeError e, g)
        | Aborts f => (Aborts f, g)
        end
  | MaybeError e => (MaybeError e, g)
  | Aborts f => (Aborts f, g)
  end.

End Build.

End Boxing.

(** ** The actor translation unit *)

Module Actor.

(** [ward_func_]: a pointer to one of the two member functions of
    [Kernel]. *)
Inductive WardFunc := Kernel_Forward | Kernel_Backward.

#[global] Instance WardFunc_eq_dec : EqDecision WardFunc.
Proof. solve_decision. Defined.

(** [ExecNodeProto] and [TaskProto], as far as [Actor::Init] reads them;
    [uint64_t] identifiers are [N]. *)
Record ExecNodeProto := mkExecNodeProto {
  op_name : string;
  node_bn_in_op2regst_desc_id : gmap string N
}.

Record TaskProto := mkTaskProto {
  id : N;
  is_forward : bool;
  exec_sequence : list ExecNodeProto
}.

(** [PbMap2HashMap]: the hash map with the entries of the protobuf map. *)
Definition PbMap2HashMap (m : gmap string N) : gmap string N := m.

Section Actor.

(** [World] is the memory the kernels work on (the blobs behind the
    registers); [Blob] is a [Blob*]. *)
Context {World Blob : Type}.

(** [Regst], as far as [WardKernel] uses it. *)
Record Regst := mkRegst {
  GetBlobPtrFromLbn : string → Blob
}.

(** The argument of [Kernel::Forward] and [Kernel::Backward]:
    [std::function<Blob*(const std::string&)>]. *)
Definition BnInOp2BlobPtr := string → outcome Blob.

(** [Kernel], as far as the actor uses it; an entry point works on the
    world through the function it is handed. *)
Record Kernel := mkKernel {
  Forward : BnInOp2BlobPtr → World → outcome World;
  Backward : BnInOp2BlobPtr → World → outcome World;
  GetLbnFromBnInOp : string → string
}.

(** [(kernel->*ward_func)(arg)]. *)
Definition invoke (kernel : Kernel) (ward_func : WardFunc)
  : BnInOp2BlobPtr → World → outcome World :=
  match ward_func with
  | Kernel_Forward => Forward kernel
  | Kernel_Backward => Backward kernel
  end.

Record ExecKernel := mkExecKernel {
  kernel : Kernel;
  bn_in_op2regst_desc_id : gmap string N
}.

Record Actor := mkActor {
  actor_id_ : N;
  ward_func_ : WardFunc;
  exec_kernel_vec_ : list ExecKernel
}.

(** [KernelMgr::Singleton().GetKernelFromOpName], the engine-wide
    registry of kernels. *)
Variable GetKernelFromOpName : string → Kernel.

(** [m.at(k)] on a hash map. *)
Definition at_ (m : gmap string N) (k : string) : outcome N :=
  match m !! k with
  | Some v => Returns v
  | None => Aborts OutOfRange
  end.

(** The range-for of [Init], pushing one [ExecKernel] per node. *)
Fixpoint Init_exec_nodes (nodes : list ExecNodeProto) (exec_kernel_vec : list ExecKernel)
  : list ExecKernel :=
  match nodes with
  | [] => exec_kernel_vec
  | node :: nodes' =>
      let ek :=
        {| kernel := GetKernelFromOpName (op_name node);
           bn_in_op2regst_desc_id := PbMap2HashMap (node_bn_in_op2regst_desc_id node) |} in
      Init_exec_nodes nodes' (exec_kernel_vec ++ [ek])
  end.

Definition Init (this : Actor) (task_proto : TaskProto) : Actor :=
  let actor_id := id task_proto in
  let ward_func :=
    if is_forward task_proto then Kernel_Forward else Kernel_Backward in
  {| actor_id_ := actor_id;
     ward_func_ := ward_func;
     exec_kernel_vec_ :=
       Init_exec_nodes (exec_sequence task_proto) (exec_kernel_vec_ this) |}.

(** The lambda [WardKernel] hands to a kernel. *)
Definition WardKernel_lambda (ek : ExecKernel) (GetRegstFromRegstDescId : N → Regst)
  : BnInOp2BlobPtr :=
  λ bn_in_op,
    regst_desc_id ← at_ (bn_in_op2regst_desc_id ek) bn_in_op;
    let regst := GetRegstFromRegstDescId regst_desc_id in
    let lbn := GetLbnFromBnInOp (kernel ek) bn_in_op in
    Returns (GetBlobPtrFromLbn regst lbn).

(** The range-for of [WardKernel]. *)
Fixpoint WardKernel_loop (ward_func : WardFunc) (eks : list ExecKernel)
    (GetRegstFromRegstDescId : N → Regst) (w : World) : outcome World :=
  match eks with
  | [] => Returns w
  | ek :: eks' =>
      w' ← invoke (kernel ek) ward_func
             (WardKernel_lambda ek GetRegstFromRegstDescId) w;
      WardKernel_loop ward_func eks' GetRegstFromRegstDescId w'
  end.

Definition WardKernel (this : Actor) (GetRegstFromRegstDescId : N → Regst)
    (w : World) : outcome World :=
  WardKernel_loop (ward_func_ this) (exec_kernel_vec_ this)
    GetRegstFromRegstDescId w.

End Actor.

End Actor.

(** ** The reduction rules, as the design document words them *)

Module Reducer.
Import Boxing.

(** Entry [k] tells whether the annotation of axis [k + 1] of
    [prev :: d] equals the annotation of the axis before it. *)
Fixpoint same_as_previous (prev : SbpParallel) (d : list SbpParallel) : list bool :=
  match d with
  | [] => []
  | s :: d' => bool_decide (s = prev) :: same_as_previous s d'
  end.

(** Independent rule: axis [i] (from 1 on) joins the current group iff
    its annotation equals the annotation of axis [i - 1]; the decision for
    axis [i] is entry [i - 1]. *)
Definition independent_merges (d : ParallelDistribution) : list bool :=
  match d with
  | [] => []
  | s0 :: d' => same_as_previous s0 d'
  end.

(** Collaborative rule: axis [i] joins iff both sides would join it. *)
Definition collaborative_merges (d_in d_out : ParallelDistribution) : list bool :=
  zip_with andb (independent_merges d_in) (independent_merges d_out).

(** Left-to-right scan with a running current group [cur]: the next axis
    joins [cur] when its decision says so and opens a new group
    otherwise. *)
Fixpoint scan_groups {A : Type} (cur : list A) (merges : list bool) (rest : list A)
  : list (list A) :=
  match rest with
  | [] => [cur]
  | a :: rest' =>
      match merges with
      | true :: merges' => scan_groups (cur ++ [a]) merges' rest'
      | false :: merges' => cur :: scan_groups [a] merges' rest'
      | [] => cur :: scan_groups [a] [] rest'
      end
  end.

(** The groups of the axes [0 .. N-1]: axis 0 opens the first group. *)
Definition axis_groups {A : Type} (merges : list bool) (axes : list A) : list (list A) :=
  match axes with
  | [] => []
  | a :: rest => scan_groups [a] merges rest
  end.

(** The index of the first axis of each group, the first group starting
    at axis [n]. *)
Fixpoint group_starts {A : Type} (n : nat) (groups : list (list A)) : list nat :=
  match groups with
  | [] => []
  | g :: groups' => n :: group_starts (n + length g) groups'
  end.

(** The product of extents, in the integers. *)
Definition extent_product (g : list Z) : Z := foldr Z.mul 1 g.

(** The extent of a merged axis: the product of the extents of its group,
    as an [int64_t]. *)
Definition merged_extent (g : list Z) : Z := wrap64 (extent_product g).

(** [Shape::elem_cnt()]: the product of the extents as an [int64_t]. *)
Definition elem_cnt (s : Shape) : Z := wrap64 (extent_product s).

(** A group carries the annotation of its first axis. *)
Definition group_annotations (groups : list (list SbpParallel)) : ParallelDistribution :=
  omap head groups.

(** Each reduced annotation repeated over the axes its group absorbed. *)
Definition expand_annotations (run_lengths : list nat) (d : ParallelDistribution)
  : ParallelDistribution :=
  mjoin (zip_with replicate run_lengths d).

(** The descriptor invariants of the data model: every extent is at least
    1 and the device count fits an [int64_t]. *)
Definition valid_hierarchy (h : Shape) : Prop :=
  Forall (λ e, 1 ≤ e) h ∧ extent_product h ≤ INT64_MAX.

(** No two neighbours may be merged: every decision is a refusal. *)
Definition irreducible (merges : list bool) : Prop :=
  Forall (λ b, b = false) merges.

(** The reduced hierarchy, the reduced annotations and the number of axes
    each reduced axis absorbed, for given decisions. *)
Definition reduced_hierarchy (merges : list bool) (h : Shape) : Shape :=
  merged_extent <$> axis_groups merges h.

Definition reduced_distribution (merges : list bool) (d : ParallelDistribution)
  : ParallelDistribution :=
  group_annotations (axis_groups merges d).

Definition run_lengths (merges : list bool) (h : Shape) : list nat :=
  length <$> axis_groups merges h.

(** The descriptor of the same device group with another hierarchy. *)
Definition with_hierarchy (pd : ParallelDesc) (h : Shape) : ParallelDesc :=
  mkParallelDesc (set_hierarchy (parallel_conf pd) h).

(** The contract of a reducer input: a hierarchy of rank at least 1 whose
    extents are [int64_t] values, and one annotation per axis. *)
Definition well_formed (pd : ParallelDesc) (d : ParallelDistribution) : Prop :=
  hierarchy pd ≠ [] ∧ length d = NumAxes (hierarchy pd)
  ∧ Forall in_int64 (hierarchy pd).

(** A producer/consumer pair is already reduced when the rule that
    applies to it (collaborative for equal ranks, independent otherwise)
    merges nothing. *)
Definition already_reduced (pd_in pd_out : ParallelDesc)
    (d_in d_out : ParallelDistribution) : Prop :=
  if decide (NumAxes (hierarchy pd_in) = NumAxes (hierarchy pd_out))
  then irreducible (collaborative_merges d_in d_out)
  else irreducible (independent_merges d_in) ∧ irreducible (independent_merges d_out).

(** The reduction the orchestrator is to choose for given ranks. *)
Inductive ReductionMode := KeepAsIs | Independent | Collaborative.

Definition reduction_mode (in_axes out_axes : nat) : ReductionMode :=
  if decide (in_axes = 1%nat ∧ out_axes = 1%nat) then KeepAsIs
  else if decide (in_axes = out_axes) then Collaborative
  else Independent.

(** [pd'] describes the device group of [pd]: its configuration is that
    of [pd] but for the hierarchy. *)
Definition only_hierarchy_changed (pd pd' : ParallelDesc) : Prop :=
  device_tag (parallel_conf pd') = device_tag (parallel_conf pd)
  ∧ device_name (parallel_conf pd') = device_name (parallel_conf pd)
  ∧ parallel_conf pd' = set_hierarchy (parallel_conf pd) (hierarchy pd').

End Reducer.

(** ** Concrete placements *)

Module Scenario.
Import Boxing.

(** Four devices as a 2 x 2 grid, and the same four devices in a row. *)
Definition four_devices (h : Shape) : ParallelDesc :=
  mkParallelDesc (mkParallelConf "gpu" ["0:0-3"] h).

Definition grid_2x2 : ParallelDesc := four_devices [2; 2].
Definition row_4 : ParallelDesc := four_devices [4].

Definition S0 : SbpParallel := split_parallel 0.
Definition B : SbpParallel := broadcast_parallel.

(** Twenty-four devices as a 2 x 3 x 4 grid, and as a 6 x 4 grid. *)
Definition twenty_four_devices (h : Shape) : ParallelDesc :=
  mkParallelDesc (mkParallelConf "gpu" ["0:0-7"; "1:0-7"; "2:0-7"] h).

Definition grid_2x3x4 : ParallelDesc := twenty_four_devices [2; 3; 4].
Definition grid_6x4 : ParallelDesc := twenty_four_devices [6; 4].

(** A builder that synthesizes nothing but records the arguments of each
    call, in order. *)
Definition recording_Build {Status TaskNodes LogicalBlobId BlobDesc : Type}
    (status : Status) (b : SubTskGphBuilder)
    (args : @BuildArgs TaskNodes LogicalBlobId BlobDesc)
    (calls : list (SubTskGphBuilder * @BuildArgs TaskNodes LogicalBlobId BlobDesc))
  : outcome Status * list (SubTskGphBuilder * @BuildArgs TaskNodes LogicalBlobId BlobDesc) :=
  (Returns status, calls ++ [(b, args)]).

(** A kernel that touches no blob but appends its name and the entry
    point that ran to the world. *)
Definition recording_kernel {Blob : Type} (name : string)
  : @Actor.Kernel (list (string * Actor.WardFunc)) Blob :=
  {| Actor.Forward := λ _ w, Returns (w ++ [(name, Actor.Kernel_Forward)]);
     Actor.Backward := λ _ w, Returns (w ++ [(name, Actor.Kernel_Backward)]);
     Actor.GetLbnFromBnInOp := λ bn_in_op, bn_in_op |}.

End Scenario.

(** ** Names for the loop bodies *)

Module Steps.
Import Boxing.

(** The body of the loop of [ParallelAxesReduce], as a function of the
    loop variable and of the two variables the loop assigns. *)
Definition ParallelAxesReduce_step
    (hierarchy : Shape) (parallel_distribution : ParallelDistribution)
  : nat → list Z * list SbpParallel → outcome (list Z * list SbpParallel) :=
  λ i '(reduced_hierarchy, return_parallel_distribution),
    s_i ← sbp_parallel parallel_distribution i;
    s_p ← sbp_parallel parallel_distribution (i - 1);
    if decide (s_i = s_p) then
      h_i ← At hierarchy i;
      Returns (back_mul reduced_hierarchy h_i, return_parallel_distribution)
    else
      h_i ← At hierarchy i;
      s_i' ← sbp_parallel parallel_distribution i;
      Returns (push_back reduced_hierarchy h_i,
               add_sbp_parallel return_parallel_distribution s_i').

(** The body of the loop of [CollaborativeParallelAxesReduce]. *)
Definition CollaborativeParallelAxesReduce_step
    (in_hierarchy out_hierarchy : Shape)
    (in_parallel_distribution out_parallel_distribution : ParallelDistribution)
  : nat → list Z * list Z * list SbpParallel * list SbpParallel →
    outcome (list Z * list Z * list SbpParallel * list SbpParallel) :=
  λ i '(in_reduced_hierarchy, out_reduced_hierarchy,
        in_return_parallel_distribution, out_return_parallel_distribution),
    in_s_i ← sbp_parallel in_parallel_distribution i;
    in_s_p ← sbp_parallel in_parallel_distribution (i - 1);
    if decide (in_s_i = in_s_p) then
      out_s_i ← sbp_parallel out_parallel_distribution i;
      out_s_p ← sbp_parallel out_parallel_distribution (i - 1);
      if decide (out_s_i = out_s_p) then
        in_h_i ← At in_hierarchy i;
        let in_reduced_hierarchy := back_mul in_reduced_hierarchy in_h_i in
        out_h_i ← At out_hierarchy i;
        let out_reduced_hierarchy := back_mul out_reduced_hierarchy out_h_i in
        Returns (in_reduced_hierarchy, out_reduced_hierarchy,
                 in_return_parallel_distribution,
                 out_return_parallel_distribution)
      else
        in_h_i ← At in_hierarchy i;
        in_s_i' ← sbp_parallel in_parallel_distribution i;
        out_h_i ← At out_hierarchy i;
        out_s_i' ← sbp_parallel out_parallel_distribution i;
        Returns (push_back in_reduced_hierarchy in_h_i,
                 push_back out_reduced_hierarchy out_h_i,
                 add_sbp_parallel in_return_parallel_distribution in_s_i',
                 add_sbp_parallel out_return_parallel_distribution out_s_i')
    else
      in_h_i ← At in_hierarchy i;
      in_s_i' ← sbp_parallel in_parallel_distribution i;
      out_h_i ← At out_hierarchy i;
      out_s_i' ← sbp_parallel out_parallel_distribution i;
      Returns (push_back in_reduced_hierarchy in_h_i,
               push_back out_reduced_hierarchy out_h_i,
               add_sbp_parallel in_return_parallel_distribution in_s_i',
               add_sbp_parallel out_return_parallel_distribution out_s_i').

End Steps.

(** ** Measures of a distribution and of a call *)

Module Measures.
Import Boxing.

(** All axes carry the same annotation. *)
Definition uniform (d : ParallelDistribution) : Prop :=
  ∀ x y, x ∈ d → y ∈ d → x = y.

(** The number of axes a reduction refuses to merge. *)
Definition refusals (merges : list bool) : nat :=
  length (filter (λ b, b = false) merges).

(** A call that came back to its caller. *)
Definition returned {A : Type} (o : outcome A) : Prop :=
  match o with
  | Returns _ => True
  | _ => False
  end.

End Measures.

(** ** The counter of outlined functions *)

Module JIT.

Definition JITOpNamePrefix : string := "JITOpGenerated".

(** [getCountJITFunction]: the state is the function-local static
    [countJITFunction], an atomic [int64_t] that starts at 0;
    [fetch_add(1)] gives the value before the addition, and the addition
    of an atomic integer wraps around. *)
Definition countJITFunction_init : Z := 0.

Definition getCountJITFunction (countJITFunction : Z) : Z * Z :=
  (countJITFunction, wrap64 (countJITFunction + 1)).

(** [JITOpNamePrefix + std::to_string(getCountJITFunction())], the name
    of an outlined function before it is sanitized. *)
Definition next_name (countJITFunction : Z) : string * Z :=
  let '(count, countJITFunction) := getCountJITFunction countJITFunction in
  (JITOpNamePrefix +:+ pretty count, countJITFunction).

(** The names of [n] successive outlined functions. *)
Fixpoint next_names (n : nat) (countJITFunction : Z) : list string * Z :=
  match n with
  | O => ([], countJITFunction)
  | S n' =>
      let '(name, countJITFunction) := next_name countJITFunction in
      let '(names, countJITFunction) := next_names n' countJITFunction in
      (name :: names, countJITFunction)
  end.

End JIT.

(** ** Facts about 64-bit arithmetic and lists *)

Import Boxing Reducer Scenario.

Lemma wrap64_in_int64 z : in_int64 z → wrap64 z = z.
Proof.
  unfold in_int64, INT64_MIN, INT64_MAX, wrap64. intros Hz.
  rewrite Z.mod_small; lia.
Qed.

Lemma wrap64_range z : in_int64 (wrap64 z).
Proof.
  unfold in_int64, INT64_MIN, INT64_MAX, wrap64.
  pose proof (Z.mod_pos_bound (z + 2 ^ 63) (2 ^ 64)). lia.
Qed.

Lemma wrap64_mul_l x y : wrap64 (wrap64 x * y) = wrap64 (x * y).
Proof.
  unfold wrap64. f_equal.
  rewrite (Z.mod_eq (x + 2 ^ 63) (2 ^ 64)) by lia.
  replace ((x + 2 ^ 63 - 2 ^ 64 * ((x + 2 ^ 63) `div` 2 ^ 64) - 2 ^ 63) * y + 2 ^ 63)
    with (x * y + 2 ^ 63 + (- ((x + 2 ^ 63) `div` 2 ^ 64) * y) * 2 ^ 64) by lia.
  apply Z_mod_plus_full.
Qed.

Lemma wrap64_mul_r x y : wrap64 (x * wrap64 y) = wrap64 (x * y).
Proof. rewrite (Z.mul_comm x), wrap64_mul_l. f_equal. lia. Qed.

Lemma extent_product_app g1 g2 :
  extent_product (g1 ++ g2) = extent_product g1 * extent_product g2.
Proof.
  unfold extent_product. induction g1 as [|x g1 IH]; simpl.
  - destruct (foldr Z.mul 1 g2); reflexivity.
  - rewrite IH. lia.
Qed.

Lemma extent_product_snoc g x : extent_product (g ++ [x]) = extent_product g * x.
Proof. rewrite extent_product_app. unfold extent_product. simpl. lia. Qed.

Lemma merged_extent_snoc g x :
  int64_mul (merged_extent g) x = merged_extent (g ++ [x]).
Proof.
  unfold int64_mul, merged_extent.
  rewrite wrap64_mul_l, extent_product_snoc. reflexivity.
Qed.

Lemma merged_extent_singleton x : in_int64 x → merged_extent [x] = x.
Proof.
  intros Hx. unfold merged_extent, extent_product. simpl.
  rewrite Z.mul_1_r. by apply wrap64_in_int64.
Qed.

Lemma back_mul_snoc v c x : back_mul (v ++ [c]) x = v ++ [int64_mul c x].
Proof.
  unfold back_mul.
  replace (pred (length (v ++ [c]))) with (length v + 0)%nat
    by (rewrite length_app; simpl; lia).
  by rewrite alter_app_r.
Qed.

(** ** The loops of the reducer *)

Lemma sbp_parallel_middle (d1 d2 : list SbpParallel) s i :
  i = length d1 → sbp_parallel (d1 ++ s :: d2) i = Returns s.
Proof. intros ->. unfold sbp_parallel. by rewrite list_lookup_middle. Qed.

Lemma At_middle (h1 h2 : list Z) x i :
  i = length h1 → At (h1 ++ x :: h2) i = Returns x.
Proof. intros ->. unfold At. by rewrite list_lookup_middle. Qed.

Lemma bind_Returns {A B} (a : A) (k : A → outcome B) : Returns a ≫= k = k a.
Proof. reflexivity. Qed.

Lemma ParallelAxesReduce_loop (n : nat) :
  ∀ (i : nat) (hpre hrest : list Z) (dpre drest : list SbpParallel)
    (p a : SbpParallel) (v cur : list Z) (curd rd : list SbpParallel),
    length hpre = i → S (length dpre) = i →
    length hrest = n → length drest = n →
    Forall in_int64 hrest → head curd = Some a →
    for_loop
      (λ i '(reduced_hierarchy, return_parallel_distribution),
         s_i ← sbp_parallel (dpre ++ p :: drest) i;
         s_p ← sbp_parallel (dpre ++ p :: drest) (i - 1);
         if decide (s_i = s_p) then
           h_i ← At (hpre ++ hrest) i;
           Returns (back_mul reduced_hierarchy h_i, return_parallel_distribution)
         else
           h_i ← At (hpre ++ hrest) i;
           s_i' ← sbp_parallel (dpre ++ p :: drest) i;
           Returns (push_back reduced_hierarchy h_i,
                    add_sbp_parallel return_parallel_distribution s_i'))
      i n (v ++ [merged_extent cur], rd ++ [a])
    = Returns
        (v ++ (merged_extent <$> scan_groups cur (same_as_previous p drest) hrest),
         rd ++ group_annotations (scan_groups curd (same_as_previous p drest) drest)).
Proof.
  induction n as [|n IH]; intros i hpre hrest dpre drest p a v cur curd rd
    Hh Hd Hhn Hdn Hrange Hhead.
  - destruct hrest; [|done]. destruct drest; [|done]. simpl.
    unfold group_annotations. simpl. by rewrite Hhead.
  - destruct hrest as [|h hrest]; [done|]. destruct drest as [|s drest]; [done|].
    simpl in Hhn, Hdn. apply Forall_cons in Hrange as [Hin Hrange].
    assert (Hd' : dpre ++ p :: s :: drest = (dpre ++ [p]) ++ s :: drest)
      by (by rewrite <- app_assoc).
    assert (Hh' : hpre ++ h :: hrest = (hpre ++ [h]) ++ hrest)
      by (by rewrite <- app_assoc).
    cbn [for_loop].
    rewrite (sbp_parallel_middle dpre (s :: drest) p (i - 1)) by lia.
    rewrite Hd'.
    rewrite (sbp_parallel_middle (dpre ++ [p]) drest s i)
      by (rewrite length_app; simpl; lia).
    rewrite (At_middle hpre hrest h i) by lia.
    rewrite !bind_Returns, Hh'.
    cbn [same_as_previous scan_groups].
    destruct (decide (s = p)) as [Heq|Hne]; rewrite bind_Returns.
    + rewrite bool_decide_eq_true_2 by done.
      rewrite back_mul_snoc, merged_extent_snoc.
      apply (IH (S i) (hpre ++ [h]) hrest (dpre ++ [p]) drest s a v
                (cur ++ [h]) (curd ++ [s]) rd);
        rewrite ?length_app; simpl; try lia; try done.
      destruct curd; simpl in *; congruence.
    + rewrite bool_decide_eq_false_2 by done.
      replace (push_back (v ++ [merged_extent cur]) h)
        with ((v ++ [merged_extent cur]) ++ [merged_extent [h]])
        by (by rewrite merged_extent_singleton).
      replace (add_sbp_parallel (rd ++ [a]) s) with ((rd ++ [a]) ++ [s]) by done.
      rewrite (IH (S i) (hpre ++ [h]) hrest (dpre ++ [p]) drest s s
                 (v ++ [merged_extent cur]) [h] [s] (rd ++ [a]));
        rewrite ?length_app; simpl; try lia; try done.
      unfold group_annotations. simpl. rewrite Hhead.
      by rewrite <- !app_assoc.
Qed.

Lemma ParallelAxesReduce_returns (pd : ParallelDesc) (dist rd : list SbpParallel) :
  hierarchy pd ≠ [] →
  length dist = NumAxes (hierarchy pd) →
  Forall in_int64 (hierarchy pd) →
  ParallelAxesReduce pd dist rd =
  Returns
    (mkParallelDesc
       (set_hierarchy (parallel_conf pd)
          (merged_extent <$> axis_groups (independent_merges dist) (hierarchy pd))),
     rd ++ group_annotations (axis_groups (independent_merges dist) dist)).
Proof.
  destruct pd as [[tag names h]]. unfold hierarchy, NumAxes. simpl.
  intros Hne Hlen Hrange.
  destruct h as [|h0 hrest]; [done|]. destruct dist as [|s0 drest]; [done|].
  simpl in Hlen. apply Forall_cons in Hrange as [Hin Hrange].
  unfold ParallelAxesReduce, hierarchy, NumAxes, FOR_RANGE. simpl parallel_conf.
  simpl conf_hierarchy.
  change (At (h0 :: hrest) 0) with (Returns h0).
  change (sbp_parallel (s0 :: drest) 0) with (Returns s0).
  rewrite !bind_Returns.
  replace (length (h0 :: hrest) - 1)%nat with (length hrest) by (simpl; lia).
  replace (push_back [] h0) with [merged_extent [h0]]
    by (by rewrite merged_extent_singleton).
  change (add_sbp_parallel rd s0) with (rd ++ [s0]).
  pose proof (ParallelAxesReduce_loop (length hrest) 1 [h0] hrest [] drest s0 s0
                [] [h0] [s0] rd) as Hloop.
  cbn [app] in Hloop. rewrite Hloop; try done. lia.
Qed.

(** The loop of [CollaborativeParallelAxesReduce], entered at axis [i]:
    both sides are scanned with the same decisions. *)
Lemma CollaborativeParallelAxesReduce_loop (n : nat) :
  ∀ (i : nat) (hpre hrest gpre grest : list Z)
    (dpre drest epre erest : list SbpParallel)
    (p q a b : SbpParallel) (v cur w cuw : list Z)
    (curd rd cure re : list SbpParallel),
    length hpre = i → length gpre = i →
    S (length dpre) = i → S (length epre) = i →
    length hrest = n → length grest = n →
    length drest = n → length erest = n →
    Forall in_int64 hrest → Forall in_int64 grest →
    head curd = Some a → head cure = Some b →
    for_loop
      (λ i '(in_reduced_hierarchy, out_reduced_hierarchy,
             in_return_parallel_distribution, out_return_parallel_distribution),
         in_s_i ← sbp_parallel (dpre ++ p :: drest) i;
         in_s_p ← sbp_parallel (dpre ++ p :: drest) (i - 1);
         if decide (in_s_i = in_s_p) then
           out_s_i ← sbp_parallel (epre ++ q :: erest) i;
           out_s_p ← sbp_parallel (epre ++ q :: erest) (i - 1);
           if decide (out_s_i = out_s_p) then
             in_h_i ← At (hpre ++ hrest) i;
             let in_reduced_hierarchy := back_mul in_reduced_hierarchy in_h_i in
             out_h_i ← At (gpre ++ grest) i;
             let out_reduced_hierarchy := back_mul out_reduced_hierarchy out_h_i in
             Returns (in_reduced_hierarchy, out_reduced_hierarchy,
                      in_return_parallel_distribution,
                      out_return_parallel_distribution)
           else
             in_h_i ← At (hpre ++ hrest) i;
             in_s_i' ← sbp_parallel (dpre ++ p :: drest) i;
             out_h_i ← At (gpre ++ grest) i;
             out_s_i' ← sbp_parallel (epre ++ q :: erest) i;
             Returns (push_back in_reduced_hierarchy in_h_i,
                      push_back out_reduced_hierarchy out_h_i,
                      add_sbp_parallel in_return_parallel_distribution in_s_i',
                      add_sbp_parallel out_return_parallel_distribution out_s_i')
         else
           in_h_i ← At (hpre ++ hrest) i;
           in_s_i' ← sbp_parallel (dpre ++ p :: drest) i;
           out_h_i ← At (gpre ++ grest) i;
           out_s_i' ← sbp_parallel (epre ++ q :: erest) i;
           Returns (push_back in_reduced_hierarchy in_h_i,
                    push_back out_reduced_hierarchy out_h_i,
                    add_sbp_parallel in_return_parallel_distribution in_s_i',
                    add_sbp_parallel out_return_parallel_distribution out_s_i'))
      i n (v ++ [merged_extent cur], w ++ [merged_extent cuw], rd ++ [a], re ++ [b])
    = Returns
        (v ++ (merged_extent <$> scan_groups cur
                 (zip_with andb (same_as_previous p drest) (same_as_previous q erest)) hrest),
         w ++ (merged_extent <$> scan_groups cuw
                 (zip_with andb (same_as_previous p drest) (same_as_previous q erest)) grest),
         rd ++ group_annotations (scan_groups curd
                 (zip_with andb (same_as_previous p drest) (same_as_previous q erest)) drest),
         re ++ group_annotations (scan_groups cure
                 (zip_with andb (same_as_previous p drest) (same_as_previous q erest)) erest)).
Proof.
  induction n as [|n IH];
    intros i hpre hrest gpre grest dpre drest epre erest p q a b v cur w cuw
      curd rd cure re Hh Hg Hd He Hhn Hgn Hdn Hen Hhr Hgr Hha Hhb.
  - destruct hrest; [|done]. destruct grest; [|done].
    destruct drest; [|done]. destruct erest; [|done]. simpl.
    unfold group_annotations. simpl. by rewrite Hha, Hhb.
  - destruct hrest as [|h hrest]; [done|]. destruct grest as [|g grest]; [done|].
    destruct drest as [|s drest]; [done|]. destruct erest as [|t erest]; [done|].
    simpl in Hhn, Hgn, Hdn, Hen.
    apply Forall_cons in Hhr as [Hhin Hhr]. apply Forall_cons in Hgr as [Hgin Hgr].
    assert (Hd' : dpre ++ p :: s :: drest = (dpre ++ [p]) ++ s :: drest)
      by (by rewrite <- app_assoc).
    assert (He' : epre ++ q :: t :: erest = (epre ++ [q]) ++ t :: erest)
      by (by rewrite <- app_assoc).
    assert (Hh' : hpre ++ h :: hrest = (hpre ++ [h]) ++ hrest)
      by (by rewrite <- app_assoc).
    assert (Hg' : gpre ++ g :: grest = (gpre ++ [g]) ++ grest)
      by (by rewrite <- app_assoc).
    cbn [for_loop].
    rewrite (sbp_parallel_middle dpre (s :: drest) p (i - 1)) by lia.
    rewrite (sbp_parallel_middle epre (t :: erest) q (i - 1)) by lia.
    rewrite Hd', He'.
    rewrite (sbp_parallel_middle (dpre ++ [p]) drest s i)
      by (rewrite length_app; simpl; lia).
    rewrite (sbp_parallel_middle (epre ++ [q]) erest t i)
      by (rewrite length_app; simpl; lia).
    rewrite (At_middle hpre hrest h i) by lia.
    rewrite (At_middle gpre grest g i) by lia.
    rewrite !bind_Returns, Hh', Hg'.
    cbn [same_as_previous zip_with scan_groups].
    destruct (decide (s = p)) as [Hs|Hs]; rewrite ?bind_Returns;
      [destruct (decide (t = q)) as [Ht|Ht]; rewrite ?bind_Returns|].
    + rewrite !bool_decide_eq_true_2 by done. cbn [andb].
      rewrite !back_mul_snoc, !merged_extent_snoc.
      apply (IH (S i) (hpre ++ [h]) hrest (gpre ++ [g]) grest
                (dpre ++ [p]) drest (epre ++ [q]) erest s t a b
                v (cur ++ [h]) w (cuw ++ [g]) (curd ++ [s]) rd (cure ++ [t]) re);
        rewrite ?length_app; simpl; try lia; try done.
      * destruct curd; simpl in *; congruence.
      * destruct cure; simpl in *; congruence.
    + rewrite (bool_decide_eq_false_2 (t = q)) by done.
      rewrite andb_false_r.
      replace (push_back (v ++ [merged_extent cur]) h)
        with ((v ++ [merged_extent cur]) ++ [merged_extent [h]])
        by (by rewrite merged_extent_singleton).
      replace (push_back (w ++ [merged_extent cuw]) g)
        with ((w ++ [merged_extent cuw]) ++ [merged_extent [g]])
        by (by rewrite merged_extent_singleton).
      replace (add_sbp_parallel (rd ++ [a]) s) with ((rd ++ [a]) ++ [s]) by done.
      replace (add_sbp_parallel (re ++ [b]) t) with ((re ++ [b]) ++ [t]) by done.
      etrans;
        [apply (IH (S i) (hpre ++ [h]) hrest (gpre ++ [g]) grest
                  (dpre ++ [p]) drest (epre ++ [q]) erest s t s t
                  (v ++ [merged_extent cur]) [h] (w ++ [merged_extent cuw]) [g]
                  [s] (rd ++ [a]) [t] (re ++ [b]));
           rewrite ?length_app; simpl; try lia; done|].
      unfold group_annotations. simpl. rewrite Hha, Hhb.
      by rewrite <- !app_assoc.
    + rewrite (bool_decide_eq_false_2 (s = p)) by done. cbn [andb].
      replace (push_back (v ++ [merged_extent cur]) h)
        with ((v ++ [merged_extent cur]) ++ [merged_extent [h]])
        by (by rewrite merged_extent_singleton).
      replace (push_back (w ++ [merged_extent cuw]) g)
        with ((w ++ [merged_extent cuw]) ++ [merged_extent [g]])
        by (by rewrite merged_extent_singleton).
      replace (add_sbp_parallel (rd ++ [a]) s) with ((rd ++ [a]) ++ [s]) by done.
      replace (add_sbp_parallel (re ++ [b]) t) with ((re ++ [b]) ++ [t]) by done.
      etrans;
        [apply (IH (S i) (hpre ++ [h]) hrest (gpre ++ [g]) grest
                  (dpre ++ [p]) drest (epre ++ [q]) erest s t s t
                  (v ++ [merged_extent cur]) [h] (w ++ [merged_extent cuw]) [g]
                  [s] (rd ++ [a]) [t] (re ++ [b]));
           rewrite ?length_app; simpl; try lia; done|].
      unfold group_annotations. simpl. rewrite Hha, Hhb.
      by rewrite <- !app_assoc.
Qed.

Lemma CollaborativeParallelAxesReduce_returns
    (pd_in pd_out : ParallelDesc) (d_in d_out rd re : list SbpParallel) :
  hierarchy pd_in ≠ [] →
  NumAxes (hierarchy pd_in) = NumAxes (hierarchy pd_out) →
  length d_in = NumAxes (hierarchy pd_in) →
  length d_out = NumAxes (hierarchy pd_out) →
  Forall in_int64 (hierarchy pd_in) → Forall in_int64 (hierarchy pd_out) →
  CollaborativeParallelAxesReduce pd_in pd_out d_in d_out rd re =
  Returns
    (mkParallelDesc
       (set_hierarchy (parallel_conf pd_in)
          (merged_extent <$>
             axis_groups (collaborative_merges d_in d_out) (hierarchy pd_in))),
     mkParallelDesc
       (set_hierarchy (parallel_conf pd_out)
          (merged_extent <$>
             axis_groups (collaborative_merges d_in d_out) (hierarchy pd_out))),
     rd ++ group_annotations (axis_groups (collaborative_merges d_in d_out) d_in),
     re ++ group_annotations (axis_groups (collaborative_merges d_in d_out) d_out)).
Proof.
  destruct pd_in as [[tag names h]], pd_out as [[tag' names' g]].
  unfold hierarchy, NumAxes. simpl.
  intros Hne Hrank Hlen_in Hlen_out Hhr Hgr.
  destruct h as [|h0 hrest]; [done|]. destruct g as [|g0 grest]; [done|].
  destruct d_in as [|s0 drest]; [done|]. destruct d_out as [|t0 erest]; [done|].
  simpl in Hrank, Hlen_in, Hlen_out.
  apply Forall_cons in Hhr as [Hhin Hhr]. apply Forall_cons in Hgr as [Hgin Hgr].
  unfold CollaborativeParallelAxesReduce, hierarchy, NumAxes, FOR_RANGE.
  simpl parallel_conf. simpl conf_hierarchy.
  rewrite decide_True by (simpl; lia).
  change (At (h0 :: hrest) 0) with (Returns h0).
  change (At (g0 :: grest) 0) with (Returns g0).
  change (sbp_parallel (s0 :: drest) 0) with (Returns s0).
  change (sbp_parallel (t0 :: erest) 0) with (Returns t0).
  rewrite !bind_Returns.
  replace (length (h0 :: hrest) - 1)%nat with (length hrest) by (simpl; lia).
  replace (push_back [] h0) with [merged_extent [h0]]
    by (by rewrite merged_extent_singleton).
  replace (push_back [] g0) with [merged_extent [g0]]
    by (by rewrite merged_extent_singleton).
  change (add_sbp_parallel rd s0) with (rd ++ [s0]).
  change (add_sbp_parallel re t0) with (re ++ [t0]).
  pose proof (CollaborativeParallelAxesReduce_loop (length hrest) 1
                [h0] hrest [g0] grest [] drest [] erest s0 t0 s0 t0
                [] [h0] [] [g0] [s0] rd [t0] re) as Hloop.
  cbn [app] in Hloop. rewrite Hloop; try done; lia.
Qed.

(** ** Facts about the groups of a scan *)

Section groups.
Context {A : Type}.
Implicit Types (cur rest : list A) (merges : list bool).

Lemma scan_groups_concat rest : ∀ cur merges,
  concat (scan_groups cur merges rest) = cur ++ rest.
Proof.
  induction rest as [|a rest IH]; intros cur merges; simpl.
  - by rewrite app_nil_r.
  - destruct merges as [|[] merges]; simpl; rewrite IH; try done.
    by rewrite <- app_assoc.
Qed.

Lemma axis_groups_concat merges (axes : list A) :
  concat (axis_groups merges axes) = axes.
Proof. destruct axes; [done|]. unfold axis_groups. by rewrite scan_groups_concat. Qed.

Lemma scan_groups_nonempty rest : ∀ cur merges,
  cur ≠ [] → Forall (λ g, g ≠ []) (scan_groups cur merges rest).
Proof.
  induction rest as [|a rest IH]; intros cur merges Hcur; simpl.
  - by constructor.
  - destruct merges as [|[] merges].
    + constructor; [done|]. by apply IH.
    + apply IH. by destruct cur.
    + constructor; [done|]. by apply IH.
Qed.

Lemma axis_groups_nonempty merges (axes : list A) :
  Forall (λ g, g ≠ []) (axis_groups merges axes).
Proof.
  destruct axes; [constructor|]. by apply scan_groups_nonempty.
Qed.

(** The start of a group other than the first is an axis that was
    refused. *)
Lemma group_starts_scan rest : ∀ cur merges (n i : nat),
  length merges = length rest →
  i ∈ group_starts n (scan_groups cur merges rest) ↔
  i = n ∨ ∃ k : nat, i = (n + length cur + k)%nat ∧ merges !! k = Some false.
Proof.
  induction rest as [|a rest IH]; intros cur merges n i Hlen.
  - destruct merges; [|done]. simpl. rewrite list_elem_of_singleton.
    split; [by left|]. intros [?|(k & _ & Hk)]; done.
  - destruct merges as [|[] merges]; [done| |]; simpl in Hlen; simpl.
    + rewrite IH by lia. rewrite length_app. simpl. split.
      * intros [?|(k & -> & Hk)]; [by left|]. right. exists (S k). split; [lia|done].
      * intros [?|(k & -> & Hk)]; [by left|]. right.
        destruct k as [|k]; [done|]. exists k. split; [lia|done].
    + rewrite elem_of_cons, IH by lia. simpl. split.
      * intros [?|[->|(k & -> & Hk)]]; [by left| |]; right.
        -- exists 0%nat. split; [lia|done].
        -- exists (S k). split; [lia|done].
      * intros [?|(k & -> & Hk)]; [by left|]. right.
        destruct k as [|k]; [left; lia|]. right. exists k. split; [lia|done].
Qed.

Lemma group_starts_axis_groups merges (axes : list A) (i : nat) :
  S (length merges) = length axes → (1 ≤ i < length axes)%nat →
  i ∉ group_starts 0 (axis_groups merges axes) ↔ merges !! (i - 1)%nat = Some true.
Proof.
  intros Hlen Hi. destruct axes as [|a rest]; [done|]. simpl in *.
  rewrite group_starts_scan by lia. simpl.
  destruct (lookup_lt_is_Some_2 merges (i - 1)%nat) as [b Hb]; [lia|].
  rewrite Hb. split.
  - intros Hno. destruct b; [done|]. destruct Hno. right.
    exists (i - 1)%nat. split; [lia|done].
  - intros [= ->] [?|(k & Hik & Hk)]; [lia|].
    replace k with (i - 1)%nat in Hk by lia. congruence.
Qed.

(** The sizes of the groups depend on the decisions and on the number of
    axes only. *)
Lemma scan_groups_lengths {B : Type} rest : ∀ (rest' : list B) cur (cur' : list B) merges,
  length cur = length cur' → length rest = length rest' →
  length <$> scan_groups cur merges rest = length <$> scan_groups cur' merges rest'.
Proof.
  induction rest as [|a rest IH]; intros [|b rest'] cur cur' merges Hc Hr;
    try done; simpl in *.
  - by rewrite Hc.
  - destruct merges as [|[] merges]; simpl.
    + rewrite Hc. f_equal. apply IH; [done|lia].
    + apply IH; [|lia]. rewrite !length_app. simpl. lia.
    + rewrite Hc. f_equal. apply IH; [done|lia].
Qed.

Lemma axis_groups_lengths {B : Type} merges (axes : list A) (axes' : list B) :
  length axes = length axes' →
  length <$> axis_groups merges axes = length <$> axis_groups merges axes'.
Proof.
  destruct axes, axes'; try done. simpl. intros Hlen.
  apply scan_groups_lengths; [done|lia].
Qed.

(** When every decision is a refusal each axis is a group of its own. *)
Lemma scan_groups_irreducible rest : ∀ cur merges,
  length merges = length rest → irreducible merges →
  scan_groups cur merges rest = cur :: ((λ a, [a]) <$> rest).
Proof.
  induction rest as [|a rest IH]; intros cur merges Hlen Hirr; [done|].
  destruct merges as [|b merges]; [done|]. simpl in Hlen.
  apply Forall_cons in Hirr as [-> Hirr]. simpl. f_equal. apply IH; [lia|done].
Qed.

End groups.

Lemma same_as_previous_length d : ∀ p, length (same_as_previous p d) = length d.
Proof. induction d as [|s d IH]; intros p; simpl; [done|]. by rewrite IH. Qed.

Lemma same_as_previous_lookup d : ∀ p (k : nat) x y,
  (p :: d) !! k = Some x → d !! k = Some y →
  same_as_previous p d !! k = Some (bool_decide (y = x)).
Proof.
  induction d as [|s d IH]; intros p k x y Hx Hy; [done|].
  destruct k as [|k]; simpl in *.
  - by simplify_eq.
  - by apply IH.
Qed.

Lemma independent_merges_length d : S (length (independent_merges d)) = length d ∨ d = [].
Proof. destruct d; [by right|]. left. simpl. by rewrite same_as_previous_length. Qed.

Lemma independent_merges_lookup (d : list SbpParallel) (i : nat) x y :
  (1 ≤ i)%nat → d !! (i - 1)%nat = Some x → d !! i = Some y →
  independent_merges d !! (i - 1)%nat = Some (bool_decide (y = x)).
Proof.
  intros Hi Hx Hy. destruct d as [|s0 d]; [done|]. simpl.
  apply same_as_previous_lookup; [done|].
  destruct i as [|i]; [lia|]. simpl in *. by replace (i - 0)%nat with i by lia.
Qed.

(** ** Groups of equal annotations *)

Lemma same_as_previous_sound d : ∀ p (k : nat),
  same_as_previous p d !! k = Some true →
  ∃ y, d !! k = Some y ∧ (p :: d) !! k = Some y.
Proof.
  induction d as [|s d IH]; intros p k Hk; [done|].
  destruct k as [|k]; simpl in *.
  - injection Hk as Hk. apply bool_decide_eq_true_1 in Hk as ->. by exists p.
  - by apply IH.
Qed.

(** Where the collaborative rule merges, each side would merge. *)
Lemma collaborative_sound_l d e p q (k : nat) :
  zip_with andb (same_as_previous p d) (same_as_previous q e) !! k = Some true →
  same_as_previous p d !! k = Some true.
Proof.
  rewrite lookup_zip_with.
  by destruct (same_as_previous p d !! k) as [[]|],
    (same_as_previous q e !! k) as [[]|].
Qed.

Lemma collaborative_sound_r d e p q (k : nat) :
  zip_with andb (same_as_previous p d) (same_as_previous q e) !! k = Some true →
  same_as_previous q e !! k = Some true.
Proof.
  rewrite lookup_zip_with.
  by destruct (same_as_previous p d !! k) as [[]|],
    (same_as_previous q e !! k) as [[]|].
Qed.

Lemma scan_groups_constant (drest : list SbpParallel) : ∀ curd p merges,
  (∀ x, x ∈ curd → x = p) →
  (∀ k : nat, merges !! k = Some true →
     ∃ y, drest !! k = Some y ∧ (p :: drest) !! k = Some y) →
  Forall (λ g, ∀ x, x ∈ g → head g = Some x) (scan_groups curd merges drest).
Proof.
  assert (Hconst : ∀ (g : list SbpParallel) p,
             (∀ x, x ∈ g → x = p) → ∀ x, x ∈ g → head g = Some x).
  { intros [|a g] p Hg x Hx; [by apply elem_of_nil in Hx|]. simpl.
    rewrite (Hg x Hx), (Hg a); [done|]. by left. }
  induction drest as [|s drest IH]; intros curd p merges Hcur Hsound; simpl.
  - constructor; [|constructor]. by apply (Hconst curd p).
  - destruct merges as [|[] merges].
    + constructor; [by apply (Hconst curd p)|].
      apply (IH [s] s []); [|done].
      intros x Hx. by apply list_elem_of_singleton in Hx.
    + destruct (Hsound 0%nat) as (y & Hy & Hp); [done|]. simpl in Hy, Hp.
      assert (s = p) as -> by congruence.
      apply (IH (curd ++ [p]) p merges).
      * intros x [Hx|Hx]%elem_of_app; [by apply Hcur|].
        by apply list_elem_of_singleton in Hx.
      * intros k Hk. apply (Hsound (S k)). done.
    + constructor; [by apply (Hconst curd p)|].
      apply (IH [s] s merges).
      * intros x Hx. by apply list_elem_of_singleton in Hx.
      * intros k Hk. apply (Hsound (S k)). done.
Qed.

Lemma expand_annotations_groups (groups : list (list SbpParallel)) :
  Forall (λ g, g ≠ []) groups →
  Forall (λ g, ∀ x, x ∈ g → head g = Some x) groups →
  expand_annotations (length <$> groups) (group_annotations groups) = concat groups.
Proof.
  unfold expand_annotations, group_annotations.
  induction groups as [|g groups IH]; intros Hne Hconst; [done|].
  apply Forall_cons in Hne as [Hg Hne]. apply Forall_cons in Hconst as [Hc Hconst].
  destruct g as [|a g]; [done|]. simpl. f_equal. f_equal; [|by apply IH].
  apply replicate_as_Forall. split; [done|].
  apply Forall_forall. intros x Hx.
  assert (Some a = Some x) by (apply (Hc x); by right). congruence.
Qed.

(** ** Products of extents *)

Lemma extent_product_merged (groups : list (list Z)) :
  wrap64 (extent_product (merged_extent <$> groups))
  = wrap64 (extent_product (concat groups)).
Proof.
  induction groups as [|g groups IH]; [done|].
  change (concat (g :: groups)) with (g ++ concat groups).
  rewrite fmap_cons, extent_product_app.
  change (extent_product (merged_extent g :: (merged_extent <$> groups)))
    with (merged_extent g * extent_product (merged_extent <$> groups)).
  unfold merged_extent at 1. rewrite wrap64_mul_l.
  rewrite <- (wrap64_mul_r _ (extent_product (merged_extent <$> groups))).
  by rewrite IH, wrap64_mul_r.
Qed.

Lemma extent_product_pos (h : list Z) : Forall (λ e, 1 ≤ e) h → 1 ≤ extent_product h.
Proof.
  induction 1 as [|e h He _ IH]; [done|].
  change (extent_product (e :: h)) with (e * extent_product h). nia.
Qed.

Lemma merged_extent_exact (groups : list (list Z)) :
  Forall (λ e, 1 ≤ e) (concat groups) →
  extent_product (concat groups) ≤ INT64_MAX →
  merged_extent <$> groups = extent_product <$> groups
  ∧ extent_product (extent_product <$> groups) = extent_product (concat groups).
Proof.
  induction groups as [|g groups IH]; [done|].
  change (concat (g :: groups)) with (g ++ concat groups).
  rewrite !fmap_cons, Forall_app, extent_product_app. intros [Hg Hgs] Hmax.
  pose proof (extent_product_pos g Hg) as Hgpos.
  pose proof (extent_product_pos _ Hgs) as Hgspos.
  destruct IH as [IH1 IH2]; [done|nia|].
  change (extent_product (extent_product g :: (extent_product <$> groups)))
    with (extent_product g * extent_product (extent_product <$> groups)).
  rewrite IH1, IH2. split; [|done]. f_equal.
  unfold merged_extent. apply wrap64_in_int64.
  unfold in_int64, INT64_MIN, INT64_MAX in *. nia.
Qed.

(** ** The reducer against the rules *)

Lemma group_starts_lengths {A B : Type} (gs : list (list A)) : ∀ (gs' : list (list B)) (n : nat),
  length <$> gs = length <$> gs' → group_starts n gs = group_starts n gs'.
Proof.
  induction gs as [|g gs IH]; intros [|g' gs'] n Hlen; try done.
  injection Hlen as Hg Hgs. simpl. rewrite Hg. f_equal. by apply IH.
Qed.

Lemma collaborative_merges_length d_in d_out :
  d_in ≠ [] → length d_in = length d_out →
  S (length (collaborative_merges d_in d_out)) = length d_in.
Proof.
  intros Hne Hlen. destruct d_in as [|s d_in]; [done|].
  destruct d_out as [|t d_out]; [done|]. unfold collaborative_merges. simpl in *.
  rewrite length_zip_with, !same_as_previous_length. lia.
Qed.

Lemma collaborative_merges_lookup (d_in d_out : list SbpParallel) (i : nat) x y x' y' :
  (1 ≤ i)%nat →
  d_in !! (i - 1)%nat = Some x → d_in !! i = Some y →
  d_out !! (i - 1)%nat = Some x' → d_out !! i = Some y' →
  collaborative_merges d_in d_out !! (i - 1)%nat
  = Some (bool_decide (y = x) && bool_decide (y' = x')).
Proof.
  intros Hi Hx Hy Hx' Hy'. unfold collaborative_merges.
  rewrite lookup_zip_with.
  rewrite (independent_merges_lookup d_in i x y) by done.
  by rewrite (independent_merges_lookup d_out i x' y') by done.
Qed.

(** C3: independent reduction scans the axes from axis 0, an axis from 1
    on joins the current group exactly when its annotation equals the
    annotation of the axis before it, and the extent of a merged axis is
    the product of the extents of its group. *)
Theorem ParallelAxesReduce_merges_equal_neighbours
    (pd : ParallelDesc) (d : list SbpParallel) :
  well_formed pd d →
  ParallelAxesReduce pd d []
  = Returns (with_hierarchy pd (reduced_hierarchy (independent_merges d) (hierarchy pd)),
             reduced_distribution (independent_merges d) d)
  ∧ concat (axis_groups (independent_merges d) (hierarchy pd)) = hierarchy pd
  ∧ (∀ i : nat, (1 ≤ i < NumAxes (hierarchy pd))%nat →
       i ∉ group_starts 0 (axis_groups (independent_merges d) (hierarchy pd))
       ↔ d !! i = d !! (i - 1)%nat)
  ∧ (valid_hierarchy (hierarchy pd) →
       reduced_hierarchy (independent_merges d) (hierarchy pd)
       = extent_product <$> axis_groups (independent_merges d) (hierarchy pd)).
Proof.
  intros (Hne & Hlen & Hrange). unfold NumAxes in *.
  split; [by rewrite ParallelAxesReduce_returns|].
  split; [apply axis_groups_concat|]. split.
  - intros i Hi.
    destruct (lookup_lt_is_Some_2 d (i - 1)%nat) as [x Hx]; [lia|].
    destruct (lookup_lt_is_Some_2 d i) as [y Hy]; [lia|].
    rewrite group_starts_axis_groups; [| |lia].
    + rewrite (independent_merges_lookup d i x y) by (done || lia).
      rewrite Hx, Hy. split.
      * intros [= Heq]. apply bool_decide_eq_true_1 in Heq. congruence.
      * intros [= Heq]. f_equal. by apply bool_decide_eq_true_2.
    + destruct (independent_merges_length d) as [?| ->]; [lia|].
      simpl in Hlen. by destruct (hierarchy pd).
  - intros [Hpos Hmax]. unfold reduced_hierarchy.
    apply merged_extent_exact; by rewrite axis_groups_concat.
Qed.

Lemma for_loop_invariant {St : Type} (I : St → Prop) (body : nat → St → outcome St) :
  (∀ i st st', I st → body i st = Returns st' → I st') →
  ∀ n i st st', I st → for_loop body i n st = Returns st' → I st'.
Proof.
intros Hbody. induction n as [|n IH]; intros i st st' Hst Hloop; simpl in Hloop.
- by injection Hloop as <-.
- destruct (body i st) as [st1| |] eqn:Hstep; [|done..].
  apply (IH (S i) st1 st'); [by apply (Hbody i st)|done].
Qed.

Lemma back_mul_length v x : length (back_mul v x) = length v.
Proof. unfold back_mul. apply length_alter. Qed.

(** Whatever it is called on, when collaborative reduction returns the
    two reduced hierarchies have the same rank, and so had the inputs. *)
Lemma CollaborativeParallelAxesReduce_equal_rank
    (pd_in pd_out : ParallelDesc) (d_in d_out rd re : list SbpParallel)
    pd_in' pd_out' d_in' d_out' :
  CollaborativeParallelAxesReduce pd_in pd_out d_in d_out rd re
  = Returns (pd_in', pd_out', d_in', d_out') →
  NumAxes (hierarchy pd_in) = NumAxes (hierarchy pd_out)
  ∧ NumAxes (hierarchy pd_in') = NumAxes (hierarchy pd_out').
Proof.
unfold CollaborativeParallelAxesReduce. case_decide as Hrank; [|done].
destruct (At (hierarchy pd_in) _); [|done..].
destruct (sbp_parallel d_in _); [|done..]. rewrite !bind_Returns.
destruct (At (hierarchy pd_out) _); [|done..].
destruct (sbp_parallel d_out _); [|done..]. rewrite !bind_Returns.
destruct (FOR_RANGE _ _ _ _) as [[[[h' g'] dist'] dist'']| |] eqn:Hloop; [|done..].
rewrite bind_Returns. intros [= <- <- <- <-]. split; [done|].
unfold hierarchy, NumAxes. simpl. unfold FOR_RANGE in Hloop.
apply (for_loop_invariant (λ '(v, w, _, _), length v = length w))
  in Hloop; [done| |done].
clear. intros i [[[v w] c] e] [[[v' w'] c'] e'] Hlen.
assert (Hpush :
  (in_h_i ← At (hierarchy pd_in) i;
   in_s_i' ← sbp_parallel d_in i;
   out_h_i ← At (hierarchy pd_out) i;
   out_s_i' ← sbp_parallel d_out i;
   Returns (push_back v in_h_i, push_back w out_h_i,
            add_sbp_parallel c in_s_i', add_sbp_parallel e out_s_i'))
  = Returns (v', w', c', e') → length v' = length w').
{ destruct (At (hierarchy pd_in) i); [|done..].
  destruct (sbp_parallel d_in i); [|done..]. rewrite !bind_Returns.
  destruct (At (hierarchy pd_out) i); [|done..].
  destruct (sbp_parallel d_out i); [|done..]. rewrite !bind_Returns.
  intros [= <- <- _ _]. unfold push_back. rewrite !length_app. simpl. lia. }
destruct (sbp_parallel d_in i) as [s| |] eqn:Hs; [|done..].
destruct (sbp_parallel d_in (i - 1)); [|done..]. rewrite !bind_Returns.
case_decide; [|done].
destruct (sbp_parallel d_out i) as [t| |] eqn:Ht; [|done..].
destruct (sbp_parallel d_out (i - 1)); [|done..]. rewrite !bind_Returns.
case_decide; [|done].
destruct (At (hierarchy pd_in) i); [|done..]. rewrite !bind_Returns.
destruct (At (hierarchy pd_out) i); [|done..]. rewrite !bind_Returns.
intros [= <- <- _ _]. by rewrite !back_mul_length.
Qed.

(** C4: collaborative reduction of two hierarchies of equal rank merges
    axis [i] exactly when the producer annotation and the consumer
    annotation both equal their annotation at [i - 1]; otherwise both
    sides open a new group at [i]; and whenever it returns, the two
    reduced hierarchies have equal rank. *)
Theorem CollaborativeParallelAxesReduce_merges_where_both_agree
    (pd_in pd_out : ParallelDesc) (d_in d_out : list SbpParallel) :
  (∀ rd re pd_in' pd_out' d_in' d_out',
     CollaborativeParallelAxesReduce pd_in pd_out d_in d_out rd re
     = Returns (pd_in', pd_out', d_in', d_out') →
     NumAxes (hierarchy pd_in') = NumAxes (hierarchy pd_out'))
  ∧ (well_formed pd_in d_in → well_formed pd_out d_out →
     NumAxes (hierarchy pd_in) = NumAxes (hierarchy pd_out) →
     CollaborativeParallelAxesReduce pd_in pd_out d_in d_out [] []
     = Returns
         (with_hierarchy pd_in
            (reduced_hierarchy (collaborative_merges d_in d_out) (hierarchy pd_in)),
          with_hierarchy pd_out
            (reduced_hierarchy (collaborative_merges d_in d_out) (hierarchy pd_out)),
          reduced_distribution (collaborative_merges d_in d_out) d_in,
          reduced_distribution (collaborative_merges d_in d_out) d_out)
     ∧ (∀ i : nat, (1 ≤ i < NumAxes (hierarchy pd_in))%nat →
          i ∉ group_starts 0
                (axis_groups (collaborative_merges d_in d_out) (hierarchy pd_in))
          ↔ d_in !! i = d_in !! (i - 1)%nat ∧ d_out !! i = d_out !! (i - 1)%nat)
     ∧ group_starts 0
         (axis_groups (collaborative_merges d_in d_out) (hierarchy pd_in))
       = group_starts 0
           (axis_groups (collaborative_merges d_in d_out) (hierarchy pd_out))).
Proof.
split.
{ intros rd re pd_in' pd_out' d_in' d_out' Hret.
  by apply CollaborativeParallelAxesReduce_equal_rank in Hret as [_ ?]. }
intros (Hne & Hlen & Hrange) (Hne' & Hlen' & Hrange') Hrank.
assert (Hsizes :
  length <$> axis_groups (collaborative_merges d_in d_out) (hierarchy pd_in)
  = length <$> axis_groups (collaborative_merges d_in d_out) (hierarchy pd_out))
  by (by apply axis_groups_lengths).
unfold NumAxes in *.
split; [by rewrite CollaborativeParallelAxesReduce_returns|]. split.
- intros i Hi.
  destruct (lookup_lt_is_Some_2 d_in (i - 1)%nat) as [x Hx]; [lia|].
  destruct (lookup_lt_is_Some_2 d_in i) as [y Hy]; [lia|].
  destruct (lookup_lt_is_Some_2 d_out (i - 1)%nat) as [x' Hx']; [lia|].
  destruct (lookup_lt_is_Some_2 d_out i) as [y' Hy']; [lia|].
  rewrite group_starts_axis_groups; [| |lia].
  + rewrite (collaborative_merges_lookup d_in d_out i x y x' y')
      by (done || lia).
    rewrite Hx, Hy, Hx', Hy'. split.
    * intros [= Heq]. apply andb_true_iff in Heq as [H1 H2].
      apply bool_decide_eq_true_1 in H1, H2. by subst.
    * intros [[= ->] [= ->]]. by rewrite !bool_decide_eq_true_2.
  + rewrite collaborative_merges_length; [lia| |lia].
    intros ->. simpl in Hlen. by destruct (hierarchy pd_in).
- by apply group_starts_lengths.
Qed.

Lemma independent_groups_constant (d : list SbpParallel) :
  Forall (λ g, ∀ x, x ∈ g → head g = Some x) (axis_groups (independent_merges d) d).
Proof.
  destruct d as [|s0 d]; [constructor|]. simpl.
  apply (scan_groups_constant d [s0] s0).
  - intros x Hx. by apply list_elem_of_singleton in Hx.
  - apply same_as_previous_sound.
Qed.

Lemma collaborative_groups_constant_l (d_in d_out : list SbpParallel) :
  Forall (λ g, ∀ x, x ∈ g → head g = Some x)
    (axis_groups (collaborative_merges d_in d_out) d_in).
Proof.
  destruct d_in as [|s0 d]; [constructor|]. unfold collaborative_merges. simpl.
  apply (scan_groups_constant d [s0] s0).
  - intros x Hx. by apply list_elem_of_singleton in Hx.
  - destruct d_out as [|t0 e]; [by destruct (same_as_previous s0 d)|].
    intros k Hk. apply same_as_previous_sound.
    apply (collaborative_sound_l d e s0 t0 k Hk).
Qed.

Lemma collaborative_groups_constant_r (d_in d_out : list SbpParallel) :
  Forall (λ g, ∀ x, x ∈ g → head g = Some x)
    (axis_groups (collaborative_merges d_in d_out) d_out).
Proof.
  destruct d_out as [|t0 e]; [constructor|]. unfold collaborative_merges. simpl.
  apply (scan_groups_constant e [t0] t0).
  - intros x Hx. by apply list_elem_of_singleton in Hx.
  - destruct d_in as [|s0 d]; [done|].
    intros k Hk. apply same_as_previous_sound.
    apply (collaborative_sound_r d e s0 t0 k Hk).
Qed.

(** What a reduction keeps: the device count and, run by run, the
    annotations. *)
Lemma reduction_keeps (merges : list bool) (h : list Z) (d : list SbpParallel) :
  length d = length h →
  Forall (λ g, ∀ x, x ∈ g → head g = Some x) (axis_groups merges d) →
  elem_cnt (reduced_hierarchy merges h) = elem_cnt h
  ∧ (valid_hierarchy h → extent_product (reduced_hierarchy merges h) = extent_product h)
  ∧ expand_annotations (run_lengths merges h) (reduced_distribution merges d) = d.
Proof.
  intros Hlen Hconst. unfold elem_cnt, reduced_hierarchy. split; [|split].
  - by rewrite extent_product_merged, axis_groups_concat.
  - intros [Hpos Hmax].
    destruct (merged_extent_exact (axis_groups merges h)) as [-> ->];
      by rewrite axis_groups_concat.
  - unfold run_lengths, reduced_distribution.
    rewrite (axis_groups_lengths merges h d) by done.
    rewrite expand_annotations_groups; [apply axis_groups_concat| |done].
    apply axis_groups_nonempty.
Qed.

(** C7: a reduction, independent or collaborative, keeps the product of
    the extents, and repeating each reduced annotation over the run of
    axes its group absorbed gives back the original annotations. *)
Theorem reduction_keeps_extent_product_and_annotations
    (pd_in pd_out : ParallelDesc) (d_in d_out : list SbpParallel) :
  well_formed pd_in d_in → well_formed pd_out d_out →
  (∃ pd' d',
     ParallelAxesReduce pd_in d_in [] = Returns (pd', d')
     ∧ hierarchy pd' = reduced_hierarchy (independent_merges d_in) (hierarchy pd_in)
     ∧ elem_cnt (hierarchy pd') = elem_cnt (hierarchy pd_in)
     ∧ (valid_hierarchy (hierarchy pd_in) →
          extent_product (hierarchy pd') = extent_product (hierarchy pd_in))
     ∧ expand_annotations
         (run_lengths (independent_merges d_in) (hierarchy pd_in)) d' = d_in)
  ∧ (NumAxes (hierarchy pd_in) = NumAxes (hierarchy pd_out) →
     ∃ pd_in' pd_out' d_in' d_out',
       CollaborativeParallelAxesReduce pd_in pd_out d_in d_out [] []
       = Returns (pd_in', pd_out', d_in', d_out')
       ∧ hierarchy pd_in'
         = reduced_hierarchy (collaborative_merges d_in d_out) (hierarchy pd_in)
       ∧ hierarchy pd_out'
         = reduced_hierarchy (collaborative_merges d_in d_out) (hierarchy pd_out)
       ∧ elem_cnt (hierarchy pd_in') = elem_cnt (hierarchy pd_in)
       ∧ elem_cnt (hierarchy pd_out') = elem_cnt (hierarchy pd_out)
       ∧ (valid_hierarchy (hierarchy pd_in) →
            extent_product (hierarchy pd_in') = extent_product (hierarchy pd_in))
       ∧ (valid_hierarchy (hierarchy pd_out) →
            extent_product (hierarchy pd_out') = extent_product (hierarchy pd_out))
       ∧ expand_annotations
           (run_lengths (collaborative_merges d_in d_out) (hierarchy pd_in)) d_in'
         = d_in
       ∧ expand_annotations
           (run_lengths (collaborative_merges d_in d_out) (hierarchy pd_out)) d_out'
         = d_out).
Proof.
  intros Hin Hout.
  pose proof Hin as (Hne & Hlen & Hrange).
  pose proof Hout as (Hne' & Hlen' & Hrange'). unfold NumAxes in *.
  split.
  - eexists _, _. split; [by apply ParallelAxesReduce_returns|].
    split; [done|]. simpl.
    apply (reduction_keeps (independent_merges d_in) (hierarchy pd_in) d_in);
      [done|apply independent_groups_constant].
  - intros Hrank. eexists _, _, _, _.
    split; [by apply CollaborativeParallelAxesReduce_returns|].
    split; [done|]. split; [done|]. simpl.
    destruct (reduction_keeps (collaborative_merges d_in d_out)
                (hierarchy pd_in) d_in) as (? & ? & ?);
      [done|apply collaborative_groups_constant_l|].
    destruct (reduction_keeps (collaborative_merges d_in d_out)
                (hierarchy pd_out) d_out) as (? & ? & ?);
      [done|apply collaborative_groups_constant_r|].
    done.
Qed.

Lemma reduced_hierarchy_irreducible (merges : list bool) (h : list Z) :
  irreducible merges → S (length merges) = length h → Forall in_int64 h →
  reduced_hierarchy merges h = h.
Proof.
  intros Hirr Hlen Hrange. destruct h as [|h0 h]; [done|].
  unfold reduced_hierarchy. simpl in *.
  rewrite scan_groups_irreducible by (done || lia).
  rewrite fmap_cons, <- list_fmap_compose.
  apply Forall_cons in Hrange as [Hin Hrange].
  rewrite merged_extent_singleton by done. f_equal.
  rewrite <- (list_fmap_id h) at 2. apply Forall_fmap_ext_1.
  eapply Forall_impl; [exact Hrange|]. intros x Hx. by apply merged_extent_singleton.
Qed.

Lemma reduced_distribution_irreducible (merges : list bool) (d : list SbpParallel) :
  irreducible merges → S (length merges) = length d →
  reduced_distribution merges d = d.
Proof.
  intros Hirr Hlen. destruct d as [|s0 d]; [done|].
  unfold reduced_distribution, group_annotations. simpl in *.
  rewrite scan_groups_irreducible by (done || lia). simpl. f_equal.
  clear. induction d as [|s d IH]; [done|]. simpl. f_equal. apply IH.
Qed.

Lemma with_hierarchy_same (pd : ParallelDesc) : with_hierarchy pd (hierarchy pd) = pd.
Proof. by destruct pd as [[tag names h]]. Qed.

Lemma InOutParallelAxesReduce_already_reduced
    (pd_in pd_out : ParallelDesc) (d_in d_out : list SbpParallel) :
  well_formed pd_in d_in → well_formed pd_out d_out →
  already_reduced pd_in pd_out d_in d_out →
  InOutParallelAxesReduce pd_in pd_out d_in d_out [] []
  = Returns (pd_in, pd_out, d_in, d_out).
Proof.
  intros (Hne & Hlen & Hrange) (Hne' & Hlen' & Hrange') Hred.
  unfold InOutParallelAxesReduce. case_decide as Hone; [done|].
  unfold already_reduced in Hred. unfold NumAxes in *.
  assert (d_in ≠ []) as Hdne by (intros ->; by destruct (hierarchy pd_in)).
  assert (d_out ≠ []) as Hdne' by (intros ->; by destruct (hierarchy pd_out)).
  destruct (decide (length (hierarchy pd_in) = length (hierarchy pd_out)))
    as [Hrank|Hrank].
  - rewrite decide_False by (intros H; by apply H).
    rewrite CollaborativeParallelAxesReduce_returns by done.
    pose proof (collaborative_merges_length d_in d_out Hdne) as Hm.
    fold (reduced_hierarchy (collaborative_merges d_in d_out) (hierarchy pd_in)).
    fold (reduced_hierarchy (collaborative_merges d_in d_out) (hierarchy pd_out)).
    fold (reduced_distribution (collaborative_merges d_in d_out) d_in).
    fold (reduced_distribution (collaborative_merges d_in d_out) d_out).
    rewrite !reduced_hierarchy_irreducible, !reduced_distribution_irreducible
      by (done || lia).
    fold (with_hierarchy pd_in (hierarchy pd_in)).
    fold (with_hierarchy pd_out (hierarchy pd_out)).
    by rewrite !with_hierarchy_same.
  - destruct Hred as [Hin Hout]. rewrite decide_True by done.
    rewrite !ParallelAxesReduce_returns by done.
    destruct (independent_merges_length d_in) as [Hm|?]; [|done].
    destruct (independent_merges_length d_out) as [Hm'|?]; [|done].
    fold (reduced_hierarchy (independent_merges d_in) (hierarchy pd_in)).
    fold (reduced_hierarchy (independent_merges d_out) (hierarchy pd_out)).
    fold (reduced_distribution (independent_merges d_in) d_in).
    fold (reduced_distribution (independent_merges d_out) d_out).
    rewrite !reduced_hierarchy_irreducible, !reduced_distribution_irreducible
      by (done || lia).
    fold (with_hierarchy pd_in (hierarchy pd_in)).
    fold (with_hierarchy pd_out (hierarchy pd_out)).
    by rewrite !with_hierarchy_same.
Qed.

(** *** What a reduction returns is reduced *)

Lemma scan_annotations_irreducible (d : list SbpParallel) : ∀ cur p,
  head cur = Some p →
  ∃ rest,
    group_annotations (scan_groups cur (same_as_previous p d) d) = p :: rest
    ∧ irreducible (same_as_previous p rest).
Proof.
  unfold group_annotations.
  induction d as [|s d IH]; intros cur p Hcur.
  - exists []. simpl. rewrite Hcur. by split; [|constructor].
  - cbn [same_as_previous scan_groups]. case_bool_decide as Hs.
    + subst s. apply (IH (cur ++ [p]) p). by destruct cur.
    + destruct (IH [s] s) as (rest & Hrest & Hirr); [done|].
      exists (s :: rest). cbn [omap list_omap]. rewrite Hcur.
      split; [by f_equal|].
      cbn [same_as_previous]. rewrite bool_decide_eq_false_2 by done.
      by constructor.
Qed.

Lemma independent_reduced_irreducible (d : list SbpParallel) :
  irreducible (independent_merges (reduced_distribution (independent_merges d) d)).
Proof.
  destruct d as [|s0 d]; [constructor|]. unfold reduced_distribution. simpl.
  destruct (scan_annotations_irreducible d [s0] s0) as (rest & -> & Hirr); done.
Qed.

Lemma scan_annotations_collaborative_irreducible (d : list SbpParallel) :
  ∀ (e cur cure : list SbpParallel) p q,
  length d = length e → head cur = Some p → head cure = Some q →
  ∃ rest reste,
    group_annotations
      (scan_groups cur
         (zip_with andb (same_as_previous p d) (same_as_previous q e)) d)
    = p :: rest
    ∧ group_annotations
        (scan_groups cure
           (zip_with andb (same_as_previous p d) (same_as_previous q e)) e)
      = q :: reste
    ∧ irreducible
        (zip_with andb (same_as_previous p rest) (same_as_previous q reste)).
Proof.
  unfold group_annotations.
  induction d as [|s d IH]; intros [|t e] cur cure p q Hlen Hcur Hcure; try done.
  - exists [], []. simpl. rewrite Hcur, Hcure. by repeat split; try constructor.
  - injection Hlen as Hlen.
    cbn [same_as_previous zip_with scan_groups].
    destruct (decide (s = p ∧ t = q)) as [[-> ->]|Hno].
    + rewrite !bool_decide_eq_true_2 by done. cbn [andb].
      apply (IH e (cur ++ [p]) (cure ++ [q]) p q Hlen);
        [by destruct cur|by destruct cure].
    + assert (bool_decide (s = p) && bool_decide (t = q) = false) as Hflag.
      { apply andb_false_iff. rewrite !bool_decide_eq_false.
        destruct (decide (s = p)) as [->|]; [right|by left].
        intros ->. by apply Hno. }
      rewrite Hflag.
      destruct (IH e [s] [t] s t Hlen) as (rest & reste & Hr & Hre & Hirr);
        [done..|].
      exists (s :: rest), (t :: reste). cbn [omap list_omap].
      rewrite Hcur, Hcure. split; [by f_equal|]. split; [by f_equal|].
      cbn [same_as_previous zip_with]. rewrite Hflag.
      by constructor.
Qed.

Lemma collaborative_reduced_irreducible (d_in d_out : list SbpParallel) :
  length d_in = length d_out →
  irreducible
    (collaborative_merges
       (reduced_distribution (collaborative_merges d_in d_out) d_in)
       (reduced_distribution (collaborative_merges d_in d_out) d_out)).
Proof.
  intros Hlen. destruct d_in as [|s0 d], d_out as [|t0 e]; try done;
    [constructor|].
  injection Hlen as Hlen. unfold reduced_distribution, collaborative_merges. simpl.
  destruct (scan_annotations_collaborative_irreducible d e [s0] [t0] s0 t0)
    as (rest & reste & -> & -> & Hirr); done.
Qed.

Lemma irreducible_zip_with_l (l1 l2 : list bool) :
  irreducible l1 → irreducible (zip_with andb l1 l2).
Proof.
  intros H. revert l2. induction H as [|b l1 -> _ IH]; intros [|c l2]; try constructor.
  - done.
  - apply IH.
Qed.

Lemma group_annotations_length (groups : list (list SbpParallel)) :
  Forall (λ g, g ≠ []) groups → length (group_annotations groups) = length groups.
Proof.
  unfold group_annotations. induction 1 as [|g groups Hg _ IH]; [done|].
  destruct g; [done|]. simpl. f_equal. apply IH.
Qed.

Lemma hierarchy_with_hierarchy (pd : ParallelDesc) (h : list Z) :
  hierarchy (with_hierarchy pd h) = h.
Proof. done. Qed.

(** The result of a reduction by given decisions meets the contract of
    the reducer again. *)
Lemma reduced_well_formed (merges : list bool) (pd : ParallelDesc)
    (d : list SbpParallel) :
  well_formed pd d →
  well_formed (with_hierarchy pd (reduced_hierarchy merges (hierarchy pd)))
    (reduced_distribution merges d).
Proof.
  intros (Hne & Hlen & Hrange). unfold well_formed, NumAxes in *.
  rewrite !hierarchy_with_hierarchy.
  unfold reduced_hierarchy, reduced_distribution.
  split; [|split].
  - intros Hnil%fmap_nil_inv.
    pose proof (axis_groups_concat merges (hierarchy pd)) as Hcat.
    rewrite Hnil in Hcat. by destruct (hierarchy pd).
  - rewrite group_annotations_length by apply axis_groups_nonempty.
    rewrite length_fmap, <- (length_fmap length),
      (axis_groups_lengths merges d (hierarchy pd)) by done.
    by rewrite length_fmap.
  - apply Forall_fmap, Forall_forall. intros g _. apply wrap64_range.
Qed.

(** C8: reducing a pair that is already reduced gives the pair back; in
    particular reducing the result of a reduction changes nothing. *)
Theorem InOutParallelAxesReduce_idempotent
    (pd_in pd_out : ParallelDesc) (d_in d_out : list SbpParallel) :
  well_formed pd_in d_in → well_formed pd_out d_out →
  (already_reduced pd_in pd_out d_in d_out →
   InOutParallelAxesReduce pd_in pd_out d_in d_out [] []
   = Returns (pd_in, pd_out, d_in, d_out))
  ∧ ∃ pd_in' pd_out' d_in' d_out',
      InOutParallelAxesReduce pd_in pd_out d_in d_out [] []
      = Returns (pd_in', pd_out', d_in', d_out')
      ∧ already_reduced pd_in' pd_out' d_in' d_out'
      ∧ InOutParallelAxesReduce pd_in' pd_out' d_in' d_out' [] []
        = Returns (pd_in', pd_out', d_in', d_out').
Proof.
  intros Hin Hout.
  split; [by apply InOutParallelAxesReduce_already_reduced|].
  pose proof Hin as (Hne & Hlen & Hrange).
  pose proof Hout as (Hne' & Hlen' & Hrange').
  assert (Hstep : ∀ pd_in' pd_out' d_in' d_out',
    InOutParallelAxesReduce pd_in pd_out d_in d_out [] []
    = Returns (pd_in', pd_out', d_in', d_out') →
    well_formed pd_in' d_in' → well_formed pd_out' d_out' →
    already_reduced pd_in' pd_out' d_in' d_out' →
    ∃ pd_in' pd_out' d_in' d_out',
      InOutParallelAxesReduce pd_in pd_out d_in d_out [] []
      = Returns (pd_in', pd_out', d_in', d_out')
      ∧ already_reduced pd_in' pd_out' d_in' d_out'
      ∧ InOutParallelAxesReduce pd_in' pd_out' d_in' d_out' [] []
        = Returns (pd_in', pd_out', d_in', d_out')).
  { intros pd_in' pd_out' d_in' d_out' Hret Hin' Hout' Hred.
    exists pd_in', pd_out', d_in', d_out'. split; [done|]. split; [done|].
    by apply InOutParallelAxesReduce_already_reduced. }
  unfold NumAxes in *.
  destruct (decide (length (hierarchy pd_in) = 1%nat
                    ∧ length (hierarchy pd_out) = 1%nat)) as [Hone|Hone].
  - apply (Hstep pd_in pd_out d_in d_out); [|done..|].
    + unfold InOutParallelAxesReduce. by rewrite decide_True.
    + unfold already_reduced, NumAxes. destruct Hone as [H1 H1'].
      rewrite decide_True by lia.
      destruct d_in as [|? [|]], d_out as [|? [|]]; simpl in *; try lia.
      constructor.
  - destruct (decide (length (hierarchy pd_in) = length (hierarchy pd_out)))
      as [Hrank|Hrank].
    + eapply Hstep.
      * unfold InOutParallelAxesReduce, NumAxes.
        rewrite decide_False, decide_False by (done || (intros H; by apply H)).
        by apply CollaborativeParallelAxesReduce_returns.
      * by apply reduced_well_formed.
      * by apply reduced_well_formed.
      * unfold already_reduced. case_decide as Hrank'.
        -- apply collaborative_reduced_irreducible. lia.
        -- destruct Hrank'. unfold NumAxes, hierarchy.
           cbn [parallel_conf conf_hierarchy set_hierarchy].
           rewrite !length_fmap.
           rewrite <- (length_fmap length),
             (axis_groups_lengths _ (hierarchy pd_in) (hierarchy pd_out)) by done.
           by rewrite length_fmap.
    + eapply Hstep.
      * unfold InOutParallelAxesReduce, NumAxes.
        rewrite decide_False, decide_True by done.
        rewrite !ParallelAxesReduce_returns by done. by rewrite !bind_Returns.
      * by apply reduced_well_formed.
      * by apply reduced_well_formed.
      * unfold already_reduced. case_decide.
        -- apply irreducible_zip_with_l, independent_reduced_irreducible.
        -- split; apply independent_reduced_irreducible.
Qed.

(** C9: the orchestrator of the reducer keeps a pair of rank-1
    hierarchies as it is, reduces the two sides independently when their
    ranks differ, and collaboratively when the ranks are equal and not
    both 1. *)
Theorem InOutParallelAxesReduce_selects_mode
    (pd_in pd_out : ParallelDesc) (d_in d_out rd re : list SbpParallel) :
  InOutParallelAxesReduce pd_in pd_out d_in d_out rd re
  = match reduction_mode (NumAxes (hierarchy pd_in)) (NumAxes (hierarchy pd_out)) with
    | KeepAsIs => Returns (pd_in, pd_out, d_in, d_out)
    | Independent =>
        '(pd_in', d_in') ← ParallelAxesReduce pd_in d_in rd;
        '(pd_out', d_out') ← ParallelAxesReduce pd_out d_out re;
        Returns (pd_in', pd_out', d_in', d_out')
    | Collaborative =>
        CollaborativeParallelAxesReduce pd_in pd_out d_in d_out rd re
    end
  ∧ (reduction_mode (NumAxes (hierarchy pd_in)) (NumAxes (hierarchy pd_out))
       = Collaborative
     ↔ NumAxes (hierarchy pd_in) = NumAxes (hierarchy pd_out)
       ∧ ¬ (NumAxes (hierarchy pd_in) = 1%nat ∧ NumAxes (hierarchy pd_out) = 1%nat))
  ∧ (reduction_mode (NumAxes (hierarchy pd_in)) (NumAxes (hierarchy pd_out))
       = Independent
     ↔ NumAxes (hierarchy pd_in) ≠ NumAxes (hierarchy pd_out))
  ∧ (reduction_mode (NumAxes (hierarchy pd_in)) (NumAxes (hierarchy pd_out))
       = KeepAsIs
     ↔ NumAxes (hierarchy pd_in) = 1%nat ∧ NumAxes (hierarchy pd_out) = 1%nat).
Proof.
  unfold InOutParallelAxesReduce, reduction_mode.
  repeat case_decide; repeat split; try done; try lia; naive_solver lia.
Qed.

(** C10: a reduction builds its descriptor from a copy of the input's
    configuration in which only the hierarchy is replaced; the device tag
    and the device names are those of the input. *)
Theorem reduction_changes_only_hierarchy
    (pd_in pd_out : ParallelDesc) (d_in d_out rd re : list SbpParallel) :
  (∀ pd' d',
     ParallelAxesReduce pd_in d_in rd = Returns (pd', d') →
     only_hierarchy_changed pd_in pd')
  ∧ (∀ pd_in' pd_out' d_in' d_out',
       CollaborativeParallelAxesReduce pd_in pd_out d_in d_out rd re
       = Returns (pd_in', pd_out', d_in', d_out') →
       only_hierarchy_changed pd_in pd_in' ∧ only_hierarchy_changed pd_out pd_out')
  ∧ (well_formed pd_in d_in →
     ∃ pd' d', ParallelAxesReduce pd_in d_in rd = Returns (pd', d'))
  ∧ (well_formed pd_in d_in → well_formed pd_out d_out →
     NumAxes (hierarchy pd_in) = NumAxes (hierarchy pd_out) →
     ∃ pd_in' pd_out' d_in' d_out',
       CollaborativeParallelAxesReduce pd_in pd_out d_in d_out rd re
       = Returns (pd_in', pd_out', d_in', d_out')).
Proof.
  split; [|split; [|split]].
  - intros pd' d'. unfold ParallelAxesReduce.
    destruct (At _ _); [|done..]. destruct (sbp_parallel _ _); [|done..].
    rewrite !bind_Returns.
    destruct (FOR_RANGE _ _ _ _) as [[h' dist']| |]; [|done..].
    rewrite bind_Returns. intros [= <- <-]. by unfold only_hierarchy_changed.
  - intros pd_in' pd_out' d_in' d_out'. unfold CollaborativeParallelAxesReduce.
    case_decide; [|done].
    destruct (At (hierarchy pd_in) _); [|done..].
    destruct (sbp_parallel d_in _); [|done..]. rewrite !bind_Returns.
    destruct (At (hierarchy pd_out) _); [|done..].
    destruct (sbp_parallel d_out _); [|done..]. rewrite !bind_Returns.
    destruct (FOR_RANGE _ _ _ _) as [[[[h' g'] dist'] dist'']| |]; [|done..].
    rewrite bind_Returns. intros [= <- <- <- <-]. by unfold only_hierarchy_changed.
  - intros (? & ? & ?). eexists _, _. by apply ParallelAxesReduce_returns.
  - intros (? & ? & ?) (? & ? & ?) ?. eexists _, _, _, _.
    by apply CollaborativeParallelAxesReduce_returns.
Qed.

(** ** The hierarchical builder *)

Section Build_facts.
Context {Graph SubTskGphBuilderStatus TaskNodes LogicalBlobId BlobDesc : Type}.
Implicit Types
  (virtual_Build :
     SubTskGphBuilder → @BuildArgs TaskNodes LogicalBlobId BlobDesc → Graph →
     outcome SubTskGphBuilderStatus * Graph)
  (UNIMPLEMENTED : outcome unit) (this : HierarchicalSubTskGphBuilder)
  (g : Graph).

(** Both reduced hierarchies of rank 1: one call of the chain, on the
    graph as it was handed in. *)
Lemma Build_rank1 virtual_Build UNIMPLEMENTED this sorted_in_tasks
    pd_in pd_out lbi logical_blob_desc d_in d_out time_shape g
    pd_in' pd_out' d_in' d_out' s_in s_out :
  InOutParallelAxesReduce pd_in pd_out d_in d_out [] []
  = Returns (pd_in', pd_out', d_in', d_out') →
  NumAxes (hierarchy pd_in') = 1%nat → NumAxes (hierarchy pd_out') = 1%nat →
  d_in' !! 0%nat = Some s_in → d_out' !! 0%nat = Some s_out →
  Build virtual_Build UNIMPLEMENTED this sorted_in_tasks pd_in pd_out lbi
    logical_blob_desc d_in d_out time_shape g
  = virtual_Build (sub_tsk_gph_builder_ this)
      {| arg_sorted_in_tasks := sorted_in_tasks;
         arg_in_parallel_desc := pd_in;
         arg_out_parallel_desc := pd_out;
         arg_lbi := lbi;
         arg_logical_blob_desc := logical_blob_desc;
         arg_in_sbp_parallel := s_in;
         arg_out_sbp_parallel := s_out;
         arg_time_shape := time_shape |} g.
Proof.
  intros Hred Hin Hout Hs_in Hs_out. unfold Build. rewrite Hred.
  rewrite decide_True by done.
  unfold Build1dParallelHierarchySubTskGph, sbp_parallel.
  by rewrite Hs_in, Hs_out.
Qed.

(** A reduced hierarchy of rank above 1: the statement [UNIMPLEMENTED();]
    runs, and only if it comes back is the error value returned; no
    builder is called. *)
Lemma Build_rank_above_1 virtual_Build UNIMPLEMENTED this sorted_in_tasks
    pd_in pd_out lbi logical_blob_desc d_in d_out time_shape g
    pd_in' pd_out' d_in' d_out' :
  InOutParallelAxesReduce pd_in pd_out d_in d_out [] []
  = Returns (pd_in', pd_out', d_in', d_out') →
  ¬ (NumAxes (hierarchy pd_in') = 1%nat ∧ NumAxes (hierarchy pd_out') = 1%nat) →
  Build virtual_Build UNIMPLEMENTED this sorted_in_tasks pd_in pd_out lbi
    logical_blob_desc d_in d_out time_shape g
  = (match UNIMPLEMENTED with
     | Returns _ => MaybeError BoxingNotSupportedError
     | MaybeError e => MaybeError e
     | Aborts f => Aborts f
     end, g).
Proof.
  intros Hred Hrank. unfold Build. rewrite Hred.
  rewrite decide_False by done. by destruct UNIMPLEMENTED.
Qed.

(** C1, on the pairing of the design document (a 2 x 2 grid, producer
    split on both axes, consumer split then broadcast): the reduced
    hierarchies keep rank 2, and [Build] runs the [UNIMPLEMENTED()]
    statement before the [return] of the error value.  With the macro
    ending the process, as [LOG(FATAL)] does, the call does not come
    back; the error value reaches the caller only under a macro that
    falls through. *)
Theorem Build_rank2_stops_at_UNIMPLEMENTED virtual_Build this sorted_in_tasks
    lbi logical_blob_desc time_shape g :
  InOutParallelAxesReduce grid_2x2 grid_2x2 [S0; S0] [S0; B] [] []
  = Returns (grid_2x2, grid_2x2, [S0; S0], [S0; B])
  ∧ Build virtual_Build (Aborts LogFatal) this sorted_in_tasks grid_2x2 grid_2x2
      lbi logical_blob_desc [S0; S0] [S0; B] time_shape g
    = (Aborts LogFatal, g)
  ∧ Build virtual_Build (Returns ()) this sorted_in_tasks grid_2x2 grid_2x2
      lbi logical_blob_desc [S0; S0] [S0; B] time_shape g
    = (MaybeError BoxingNotSupportedError, g).
Proof.
  assert (Hred :
    InOutParallelAxesReduce grid_2x2 grid_2x2 [S0; S0] [S0; B] [] []
    = Returns (grid_2x2, grid_2x2, [S0; S0], [S0; B])) by by vm_compute.
  split; [done|].
  split; by rewrite (Build_rank_above_1 _ _ _ _ _ _ _ _ _ _ _ _ _ _ _ _ Hred)
    by (simpl; lia).
Qed.

(** C2, on a 2 x 2 grid split on both axes on both sides: both reduced
    hierarchies are the row of 4, and [Build] calls the chain once, with
    the axis-0 annotations of the reduced distributions, but with the
    placements it was given (the 2 x 2 grids), not the reduced ones. *)
Theorem Build_rank1_passes_original_placements virtual_Build UNIMPLEMENTED this
    sorted_in_tasks lbi logical_blob_desc time_shape g
    (status : SubTskGphBuilderStatus) :
  InOutParallelAxesReduce grid_2x2 grid_2x2 [S0; S0] [S0; S0] [] []
  = Returns (row_4, row_4, [S0], [S0])
  ∧ Build virtual_Build UNIMPLEMENTED this sorted_in_tasks grid_2x2 grid_2x2
      lbi logical_blob_desc [S0; S0] [S0; S0] time_shape g
    = virtual_Build (sub_tsk_gph_builder_ this)
        {| arg_sorted_in_tasks := sorted_in_tasks;
           arg_in_parallel_desc := grid_2x2;
           arg_out_parallel_desc := grid_2x2;
           arg_lbi := lbi;
           arg_logical_blob_desc := logical_blob_desc;
           arg_in_sbp_parallel := S0;
           arg_out_sbp_parallel := S0;
           arg_time_shape := time_shape |} g
  ∧ Build (recording_Build status) UNIMPLEMENTED this sorted_in_tasks
      grid_2x2 grid_2x2 lbi logical_blob_desc [S0; S0] [S0; S0] time_shape []
    = (Returns status,
       [(sub_tsk_gph_builder_ this,
         {| arg_sorted_in_tasks := sorted_in_tasks;
            arg_in_parallel_desc := grid_2x2;
            arg_out_parallel_desc := grid_2x2;
            arg_lbi := lbi;
            arg_logical_blob_desc := logical_blob_desc;
            arg_in_sbp_parallel := S0;
            arg_out_sbp_parallel := S0;
            arg_time_shape := time_shape |})])
  ∧ grid_2x2 ≠ row_4.
Proof.
  assert (Hred :
    InOutParallelAxesReduce grid_2x2 grid_2x2 [S0; S0] [S0; S0] [] []
    = Returns (row_4, row_4, [S0], [S0])) by by vm_compute.
  split; [done|]. split; [|split]; [| |done].
  - by apply (Build_rank1 _ _ _ _ _ _ _ _ _ _ _ _ _ _ _ _ _ _ Hred).
  - unfold Build. by rewrite Hred.
Qed.

End Build_facts.

(** C5: the constructor builds one chain: one-to-one, B21, collective
    boxing, slice boxing, naive B2B, naive B2P in this order, the
    collective-boxing builder being there exactly when
    [nccl_use_compute_stream], read by the constructor, is false. *)
Theorem HierarchicalSubTskGphBuilder_chain_order (resource_desc : ResourceDesc) :
  sub_tsk_gph_builder_ (HierarchicalSubTskGphBuilder_new resource_desc)
  = ChainSubTskGphBuilder
      ([OneToOneSubTskGphBuilder; B21SubTskGphBuilder]
       ++ (if nccl_use_compute_stream resource_desc then []
           else [CollectiveBoxingSubTskGphBuilder])
       ++ [SliceBoxingSubTskGphBuilder; NaiveB2BSubTskGphBuilder;
           NaiveB2PSubTskGphBuilder])
  ∧ (CollectiveBoxingSubTskGphBuilder
       ∈ chain_builders
           (sub_tsk_gph_builder_ (HierarchicalSubTskGphBuilder_new resource_desc))
     ↔ nccl_use_compute_stream resource_desc = false).
Proof.
  destruct resource_desc as [[]]; (split; [done|]).
  - change (chain_builders _)
      with [OneToOneSubTskGphBuilder; B21SubTskGphBuilder;
            SliceBoxingSubTskGphBuilder; NaiveB2BSubTskGphBuilder;
            NaiveB2PSubTskGphBuilder].
    rewrite !elem_of_cons, elem_of_nil. split; [|done].
    intros H. repeat (destruct H as [H|H]; [discriminate H|]). done.
  - change (chain_builders _)
      with [OneToOneSubTskGphBuilder; B21SubTskGphBuilder;
            CollectiveBoxingSubTskGphBuilder;
            SliceBoxingSubTskGphBuilder; NaiveB2BSubTskGphBuilder;
            NaiveB2PSubTskGphBuilder].
    split; [done|]. intros _. do 2 right. by left.
Qed.

(** ** The actor *)

Section Actor_facts.
Context {World Blob : Type}.
Implicit Types
  (GetKernelFromOpName : string → @Actor.Kernel World Blob)
  (GetRegstFromRegstDescId : N → @Actor.Regst Blob)
  (w : World).

Lemma Init_exec_nodes_app GetKernelFromOpName nodes : ∀ exec_kernel_vec,
  Actor.Init_exec_nodes GetKernelFromOpName nodes exec_kernel_vec
  = exec_kernel_vec
    ++ ((λ node,
           Actor.mkExecKernel (GetKernelFromOpName (Actor.op_name node))
             (Actor.node_bn_in_op2regst_desc_id node)) <$> nodes).
Proof.
  induction nodes as [|node nodes IH]; intros vec; simpl.
  - by rewrite app_nil_r.
  - rewrite IH. by rewrite <- app_assoc.
Qed.

Lemma WardKernel_loop_app ward_func eks1 eks2 GetRegstFromRegstDescId : ∀ w,
  Actor.WardKernel_loop ward_func (eks1 ++ eks2) GetRegstFromRegstDescId w
  = w' ← Actor.WardKernel_loop ward_func eks1 GetRegstFromRegstDescId w;
    Actor.WardKernel_loop ward_func eks2 GetRegstFromRegstDescId w'.
Proof.
  induction eks1 as [|ek eks1 IH]; intros w; [done|]. simpl.
  destruct (Actor.invoke _ _ _ _) as [w'| |]; [|done..].
  rewrite !bind_Returns. apply IH.
Qed.

End Actor_facts.

Lemma WardKernel_loop_recording {Blob : Type} ward_func
    (GetRegstFromRegstDescId : N → @Actor.Regst Blob)
    (nodes : list Actor.ExecNodeProto) : ∀ w,
  Actor.WardKernel_loop ward_func
    ((λ node,
        Actor.mkExecKernel (recording_kernel (Actor.op_name node))
          (Actor.node_bn_in_op2regst_desc_id node)) <$> nodes)
    GetRegstFromRegstDescId w
  = Returns (w ++ ((λ node, (Actor.op_name node, ward_func)) <$> nodes)).
Proof.
  induction nodes as [|node nodes IH]; intros w.
  - simpl. by rewrite app_nil_r.
  - rewrite !fmap_cons. cbn [Actor.WardKernel_loop].
    replace (Actor.invoke _ _ _ w)
      with (Returns (A := list (string * Actor.WardFunc))
              (w ++ [(Actor.op_name node, ward_func)]))
      by (by destruct ward_func).
    rewrite bind_Returns, IH. by rewrite <- app_assoc.
Qed.

(** C6: [WardKernel] invokes the bindings in the order [Init] built them
    in, a binding after the one before it has come back; the entry point
    is [Forward] for a forward task and [Backward] otherwise; and the
    function handed to a kernel looks the slot up in the binding's map,
    resolves the identifier with the caller's resolver, asks the kernel for
    the label of the slot and returns the blob of that label in that
    register. *)
Theorem WardKernel_runs_bindings_in_order {World Blob : Type}
    (GetKernelFromOpName : string → @Actor.Kernel World Blob)
    (GetRegstFromRegstDescId : N → @Actor.Regst Blob)
    (this : Actor.Actor) (task_proto : Actor.TaskProto) (w : World) :
  Actor.ward_func_ (Actor.Init GetKernelFromOpName this task_proto)
  = (if Actor.is_forward task_proto then Actor.Kernel_Forward
     else Actor.Kernel_Backward)
  ∧ Actor.exec_kernel_vec_ (Actor.Init GetKernelFromOpName this task_proto)
    = Actor.exec_kernel_vec_ this
      ++ ((λ node,
             Actor.mkExecKernel (GetKernelFromOpName (Actor.op_name node))
               (Actor.node_bn_in_op2regst_desc_id node))
          <$> Actor.exec_sequence task_proto)
  ∧ (∀ node_A node_B,
       Actor.exec_kernel_vec_ this = [] →
       Actor.exec_sequence task_proto = [node_A; node_B] →
       ∃ ek_A ek_B,
         Actor.exec_kernel_vec_ (Actor.Init GetKernelFromOpName this task_proto)
         = [ek_A; ek_B]
         ∧ Actor.kernel ek_A = GetKernelFromOpName (Actor.op_name node_A)
         ∧ Actor.kernel ek_B = GetKernelFromOpName (Actor.op_name node_B)
         ∧ Actor.WardKernel (Actor.Init GetKernelFromOpName this task_proto)
             GetRegstFromRegstDescId w
           = w' ← (if Actor.is_forward task_proto
                   then Actor.Forward (Actor.kernel ek_A)
                   else Actor.Backward (Actor.kernel ek_A))
                    (Actor.WardKernel_lambda ek_A GetRegstFromRegstDescId) w;
             (if Actor.is_forward task_proto
              then Actor.Forward (Actor.kernel ek_B)
              else Actor.Backward (Actor.kernel ek_B))
               (Actor.WardKernel_lambda ek_B GetRegstFromRegstDescId) w')
  ∧ (∀ actor_id ward_func eks1 eks2,
       Actor.WardKernel (Actor.mkActor actor_id ward_func (eks1 ++ eks2))
         GetRegstFromRegstDescId w
       = w' ← Actor.WardKernel (Actor.mkActor actor_id ward_func eks1)
                GetRegstFromRegstDescId w;
         Actor.WardKernel (Actor.mkActor actor_id ward_func eks2)
           GetRegstFromRegstDescId w')
  ∧ (∀ (ek : @Actor.ExecKernel World Blob) bn_in_op,
       Actor.WardKernel_lambda ek GetRegstFromRegstDescId bn_in_op
       = match Actor.bn_in_op2regst_desc_id ek !! bn_in_op with
         | Some regst_desc_id =>
             Returns
               (Actor.GetBlobPtrFromLbn (GetRegstFromRegstDescId regst_desc_id)
                  (Actor.GetLbnFromBnInOp (Actor.kernel ek) bn_in_op))
         | None => Aborts OutOfRange
         end)
  ∧ (∀ actor_id ward_func,
       Actor.WardKernel
         (Actor.Init recording_kernel (Actor.mkActor actor_id ward_func [])
            task_proto)
         GetRegstFromRegstDescId []
       = Returns
           ((λ node,
               (Actor.op_name node,
                if Actor.is_forward task_proto then Actor.Kernel_Forward
                else Actor.Kernel_Backward))
            <$> Actor.exec_sequence task_proto)).
Proof.
  split; [done|]. split; [apply Init_exec_nodes_app|].
  split; [|split; [|split]].
  - intros node_A node_B Hfresh Hseq. eexists _, _.
    unfold Actor.WardKernel, Actor.Init. simpl.
    rewrite Hfresh, Hseq. simpl. split; [done|]. split; [done|]. split; [done|].
    destruct (Actor.is_forward task_proto); simpl.
    + destruct (Actor.Forward _ _ w) as [w'| |]; [|done..].
      rewrite !bind_Returns. by destruct (Actor.Forward _ _ w').
    + destruct (Actor.Backward _ _ w) as [w'| |]; [|done..].
      rewrite !bind_Returns. by destruct (Actor.Backward _ _ w').
  - intros actor_id ward_func eks1 eks2. apply WardKernel_loop_app.
  - intros ek bn_in_op. unfold Actor.WardKernel_lambda, Actor.at_.
    by destruct (_ !! _).
  - intros actor_id ward_func. unfold Actor.WardKernel, Actor.Init. simpl.
    rewrite Init_exec_nodes_app. simpl.
    by rewrite WardKernel_loop_recording.
Qed.

(** ** The theorems at concrete placements *)

Lemma grid_2x3x4_well_formed (d : list SbpParallel) :
  length d = 3%nat → well_formed grid_2x3x4 d.
Proof.
  intros Hd. split; [done|]. split; [done|].
  repeat constructor; unfold INT64_MIN, INT64_MAX; simpl; lia.
Defined.

Lemma grid_2x2_well_formed (d : list SbpParallel) :
  length d = 2%nat → well_formed grid_2x2 d.
Proof.
  intros Hd. split; [done|]. split; [done|].
  repeat constructor; unfold INT64_MIN, INT64_MAX; simpl; lia.
Defined.

Lemma ParallelAxesReduce_merges_equal_neighbours_witness :
  well_formed grid_2x3x4 [S0; S0; B]
  ∧ ParallelAxesReduce grid_2x3x4 [S0; S0; B] [] = Returns (grid_6x4, [S0; B]).
Proof.
  split; [by apply grid_2x3x4_well_formed|].
  apply (ParallelAxesReduce_merges_equal_neighbours grid_2x3x4 [S0; S0; B]).
  by apply grid_2x3x4_well_formed.
Defined.

Lemma CollaborativeParallelAxesReduce_merges_where_both_agree_witness :
  well_formed grid_2x3x4 [S0; S0; B] ∧ well_formed grid_2x3x4 [B; B; B]
  ∧ CollaborativeParallelAxesReduce grid_2x3x4 grid_2x3x4 [S0; S0; B] [B; B; B] [] []
    = Returns (grid_6x4, grid_6x4, [S0; B], [B; B]).
Proof.
  split; [by apply grid_2x3x4_well_formed|].
  split; [by apply grid_2x3x4_well_formed|].
  apply (CollaborativeParallelAxesReduce_merges_where_both_agree
           grid_2x3x4 grid_2x3x4 [S0; S0; B] [B; B; B]);
    [by apply grid_2x3x4_well_formed..|reflexivity].
Defined.

Lemma reduction_keeps_extent_product_and_annotations_witness :
  well_formed grid_2x3x4 [S0; S0; B] ∧ well_formed grid_2x2 [S0; B]
  ∧ ∃ pd' d',
      ParallelAxesReduce grid_2x3x4 [S0; S0; B] [] = Returns (pd', d')
      ∧ elem_cnt (hierarchy pd') = 24
      ∧ expand_annotations [2; 1]%nat d' = [S0; S0; B].
Proof.
  split; [by apply grid_2x3x4_well_formed|].
  split; [by apply grid_2x2_well_formed|].
  destruct (reduction_keeps_extent_product_and_annotations
              grid_2x3x4 grid_2x2 [S0; S0; B] [S0; B])
    as [(pd' & d' & Hret & _ & Hcnt & _ & Hexp) _];
    [by apply grid_2x3x4_well_formed|by apply grid_2x2_well_formed|].
  exists pd', d'. split; [exact Hret|]. split; [exact Hcnt|exact Hexp].
Defined.

Lemma InOutParallelAxesReduce_idempotent_witness :
  well_formed grid_2x2 [S0; S0] ∧ well_formed grid_2x2 [S0; B]
  ∧ already_reduced grid_2x2 grid_2x2 [S0; S0] [S0; B]
  ∧ InOutParallelAxesReduce grid_2x2 grid_2x2 [S0; S0] [S0; B] [] []
    = Returns (grid_2x2, grid_2x2, [S0; S0], [S0; B]).
Proof.
  assert (Hred : already_reduced grid_2x2 grid_2x2 [S0; S0] [S0; B])
    by (by repeat constructor).
  split; [by apply grid_2x2_well_formed|].
  split; [by apply grid_2x2_well_formed|]. split; [exact Hred|].
  apply InOutParallelAxesReduce_idempotent;
    [by apply grid_2x2_well_formed..|exact Hred].
Defined.

Lemma reduction_changes_only_hierarchy_witness :
  ParallelAxesReduce grid_2x3x4 [S0; S0; B] [] = Returns (grid_6x4, [S0; B])
  ∧ only_hierarchy_changed grid_2x3x4 grid_6x4.
Proof.
  assert (Hret :
    ParallelAxesReduce grid_2x3x4 [S0; S0; B] [] = Returns (grid_6x4, [S0; B]))
    by (vm_compute; reflexivity).
  split; [exact Hret|].
  destruct (reduction_changes_only_hierarchy grid_2x3x4 grid_2x3x4
              [S0; S0; B] [S0; S0; B] [] []) as [Hframe _].
  exact (Hframe grid_6x4 [S0; B] Hret).
Defined.

Lemma WardKernel_runs_bindings_in_order_witness :
  Actor.WardKernel
    (Actor.Init recording_kernel (Actor.mkActor 0 Actor.Kernel_Backward [])
       (Actor.mkTaskProto 7 true
          [Actor.mkExecNodeProto "matmul" ∅; Actor.mkExecNodeProto "relu" ∅]))
    (λ _, Actor.mkRegst (λ _, ())) []
  = Returns [("matmul", Actor.Kernel_Forward); ("relu", Actor.Kernel_Forward)].
Proof.
  destruct (WardKernel_runs_bindings_in_order
              (World := list (string * Actor.WardFunc)) (Blob := ())
              recording_kernel (λ _, Actor.mkRegst (λ _, ()))
              (Actor.mkActor 0 Actor.Kernel_Backward [])
              (Actor.mkTaskProto 7 true
                 [Actor.mkExecNodeProto "matmul" ∅; Actor.mkExecNodeProto "relu" ∅])
              []) as (_ & _ & _ & _ & _ & Hlog).
  exact (Hlog 0%N Actor.Kernel_Backward).
Defined.

(** * Further properties of the code *)

Import Steps Measures.

(** ** Loops in general *)

Lemma for_loop_ext {St : Type} (body1 body2 : nat → St → outcome St) (n : nat) :
  ∀ (lo : nat) (st : St),
    (∀ (i : nat) st', (lo ≤ i < lo + n)%nat → body1 i st' = body2 i st') →
    for_loop body1 lo n st = for_loop body2 lo n st.
Proof.
  induction n as [|n IH]; intros lo st Hext; [done|]. simpl.
  rewrite (Hext lo st) by lia.
  destruct (body2 lo st) as [st'| |]; [|done..]. rewrite !bind_Returns.
  apply IH. intros i st'' Hi. apply Hext. lia.
Qed.



Lemma for_loop_commute {St : Type} (f : St → St) (body : nat → St → outcome St)
    (n : nat) :
  (∀ (i : nat) st, body i (f st) = st' ← body i st; Returns (f st')) →
  ∀ (lo : nat) (st : St),
    for_loop body lo n (f st) = st' ← for_loop body lo n st; Returns (f st').
Proof.
  intros Hf. induction n as [|n IH]; intros lo st; [done|]. simpl.
  rewrite Hf. destruct (body lo st) as [st'| |]; [|done..].
  rewrite !bind_Returns. apply IH.
Qed.

(** ** When the reducers come back *)

Lemma ParallelAxesReduce_unfold (pd : ParallelDesc) (d rd : list SbpParallel) :
  ParallelAxesReduce pd d rd
  = (h0 ← At (hierarchy pd) 0;
     s0 ← sbp_parallel d 0;
     '(v, r) ← for_loop (ParallelAxesReduce_step (hierarchy pd) d) 1
                 (NumAxes (hierarchy pd) - 1) ([h0], rd ++ [s0]);
     Returns (mkParallelDesc (set_hierarchy (parallel_conf pd) v), r)).
Proof. reflexivity. Qed.




Lemma At_ge (h : list Z) (i : nat) : (length h ≤ i)%nat → At h i = Aborts OutOfRange.
Proof. intros Hi. unfold At. by rewrite lookup_ge_None_2. Qed.





(** X2: annotations beyond the rank of the hierarchy are not looked at:
    the call gives what it gives on the first [NumAxes] annotations. *)
Theorem ParallelAxesReduce_ignores_surplus (pd : ParallelDesc)
    (d rd : list SbpParallel) :
  ParallelAxesReduce pd d rd
  = ParallelAxesReduce pd (take (NumAxes (hierarchy pd)) d) rd.
Proof.
  rewrite !ParallelAxesReduce_unfold. unfold NumAxes.
  destruct (hierarchy pd) as [|h0 h]; [done|].
  change (At (h0 :: h) 0) with (Returns h0). rewrite !bind_Returns.
  assert (Hlook : ∀ i : nat, (i < length (h0 :: h))%nat →
    sbp_parallel (take (length (h0 :: h)) d) i = sbp_parallel d i).
  { intros i Hi. unfold sbp_parallel. by rewrite lookup_take_lt. }
  rewrite (Hlook 0%nat) by (simpl; lia).
  destruct (sbp_parallel d 0) as [s0| |]; [|done..]. rewrite !bind_Returns.
  rewrite (for_loop_ext
             (ParallelAxesReduce_step (h0 :: h) (take (length (h0 :: h)) d))
             (ParallelAxesReduce_step (h0 :: h) d)); [done|].
  intros i [v r] Hi. unfold ParallelAxesReduce_step.
  rewrite !Hlook by (simpl in *; lia). done.
Qed.

Lemma ParallelAxesReduce_prefix (pd : ParallelDesc) (d rd : list SbpParallel) :
  ParallelAxesReduce pd d rd
  = '(pd', d') ← ParallelAxesReduce pd d []; Returns (pd', rd ++ d').
Proof.
  rewrite !ParallelAxesReduce_unfold.
  destruct (At (hierarchy pd) 0) as [h0| |]; [|done..].
  destruct (sbp_parallel d 0) as [s0| |]; [|done..]. rewrite !bind_Returns.
  change ([] ++ [s0]) with [s0].
  assert (Hstep : ∀ (i : nat) (st : list Z * list SbpParallel),
    ParallelAxesReduce_step (hierarchy pd) d i (st.1, rd ++ st.2)
    = st' ← ParallelAxesReduce_step (hierarchy pd) d i st;
      Returns (st'.1, rd ++ st'.2)).
  { intros i [v r]. unfold ParallelAxesReduce_step. cbn [fst snd].
    destruct (sbp_parallel d i); [|done..].
    destruct (sbp_parallel d (i - 1)); [|done..]. rewrite !bind_Returns.
    case_decide; (destruct (At (hierarchy pd) i); [|done..]);
      rewrite !bind_Returns; [done|].
    cbn [fst snd]. unfold add_sbp_parallel. by rewrite <- app_assoc. }
  pose proof (for_loop_commute
                (λ st : list Z * list SbpParallel, (st.1, rd ++ st.2))
                (ParallelAxesReduce_step (hierarchy pd) d)
                (NumAxes (hierarchy pd) - 1) Hstep 1%nat ([h0], [s0])) as Hc.
  cbn [fst snd] in Hc. rewrite Hc.
  by destruct (for_loop _ _ _ ([h0], [s0])) as [[v r]| |].
Qed.

(** X3: [ParallelAxesReduce] appends to the distribution it is handed:
    what was in the out-parameter stays in front of the reduced
    annotations, and the reduced descriptor does not depend on it. *)
Theorem ParallelAxesReduce_appends (pd : ParallelDesc) (d rd : list SbpParallel) :
  ParallelAxesReduce pd d rd
  = '(pd', d') ← ParallelAxesReduce pd d []; Returns (pd', rd ++ d').
Proof. apply ParallelAxesReduce_prefix. Qed.

Lemma CollaborativeParallelAxesReduce_unfold
    (pd_in pd_out : ParallelDesc) (d_in d_out rd re : list SbpParallel) :
  NumAxes (hierarchy pd_in) = NumAxes (hierarchy pd_out) →
  CollaborativeParallelAxesReduce pd_in pd_out d_in d_out rd re
  = (in_h0 ← At (hierarchy pd_in) 0;
     in_s0 ← sbp_parallel d_in 0;
     out_h0 ← At (hierarchy pd_out) 0;
     out_s0 ← sbp_parallel d_out 0;
     '(v, w, r, e) ←
       for_loop
         (CollaborativeParallelAxesReduce_step (hierarchy pd_in) (hierarchy pd_out)
            d_in d_out)
         1 (NumAxes (hierarchy pd_in) - 1)
         ([in_h0], [out_h0], rd ++ [in_s0], re ++ [out_s0]);
     Returns (mkParallelDesc (set_hierarchy (parallel_conf pd_in) v),
              mkParallelDesc (set_hierarchy (parallel_conf pd_out) w), r, e)).
Proof.
  intros Hrank. unfold CollaborativeParallelAxesReduce. by rewrite decide_True.
Qed.







(** ** How many axes are left *)

Lemma refusals_cons (b : bool) (merges : list bool) :
  refusals (b :: merges) = if b then refusals merges else S (refusals merges).
Proof. unfold refusals. rewrite filter_cons. by destruct b. Qed.

Lemma scan_groups_length {A : Type} (rest : list A) : ∀ (cur : list A) merges,
  length merges = length rest →
  length (scan_groups cur merges rest) = S (refusals merges).
Proof.
  induction rest as [|a rest IH]; intros cur [|b merges] Hlen; try done.
  injection Hlen as Hlen. rewrite refusals_cons. destruct b; simpl.
  - by apply IH.
  - f_equal. by apply IH.
Qed.

Lemma axis_groups_length {A : Type} (merges : list bool) (axes : list A) :
  S (length merges) = length axes →
  length (axis_groups merges axes) = S (refusals merges).
Proof.
  destruct axes as [|a rest]; [done|]. simpl. intros [= Hlen].
  by apply scan_groups_length.
Qed.

Lemma refusals_le (merges : list bool) : (refusals merges ≤ length merges)%nat.
Proof. unfold refusals. apply length_filter. Qed.

Lemma refusals_0 (merges : list bool) :
  refusals merges = 0%nat ↔ Forall (λ b, b = true) merges.
Proof.
  induction merges as [|b merges IH]; [by split; [constructor|]|].
  rewrite refusals_cons, Forall_cons. destruct b; [rewrite IH; tauto|].
  split; [done|]. by intros [? _].
Qed.

Lemma refusals_zip_with_andb (m1 m2 : list bool) :
  length m1 = length m2 →
  (refusals m1 ≤ refusals (zip_with andb m1 m2))%nat
  ∧ (refusals m2 ≤ refusals (zip_with andb m1 m2))%nat.
Proof.
  revert m2. induction m1 as [|b1 m1 IH]; intros [|b2 m2] Hlen; try done.
  injection Hlen as Hlen. destruct (IH m2 Hlen) as [H1 H2].
  cbn [zip_with]. rewrite !refusals_cons. destruct b1, b2; simpl; lia.
Qed.

Lemma Forall_true_zip_with_andb (m1 m2 : list bool) :
  length m1 = length m2 →
  Forall (λ b, b = true) (zip_with andb m1 m2)
  ↔ Forall (λ b, b = true) m1 ∧ Forall (λ b, b = true) m2.
Proof.
  revert m2. induction m1 as [|b1 m1 IH]; intros [|b2 m2] Hlen; try done.
  injection Hlen as Hlen. cbn [zip_with]. rewrite !Forall_cons, IH by done.
  rewrite andb_true_iff. tauto.
Qed.

Lemma same_as_previous_all_true (d : list SbpParallel) : ∀ p,
  Forall (λ b, b = true) (same_as_previous p d) ↔ ∀ x, x ∈ d → x = p.
Proof.
  induction d as [|s d IH]; intros p.
  - split; [|constructor]. intros _ x Hx. by apply elem_of_nil in Hx.
  - cbn [same_as_previous]. rewrite Forall_cons, IH, bool_decide_eq_true. split.
    + intros [-> Hd] x [->|Hx]%elem_of_cons; [done|by apply Hd].
    + intros Hall. assert (s = p) as -> by (apply Hall; by left).
      split; [done|]. intros x Hx. apply Hall. by right.
Qed.

Lemma independent_merges_all_true (d : list SbpParallel) :
  Forall (λ b, b = true) (independent_merges d) ↔ uniform d.
Proof.
  destruct d as [|s0 d].
  { split; [|constructor]. intros _ x y Hx. by apply elem_of_nil in Hx. }
  simpl. rewrite same_as_previous_all_true. unfold uniform. split.
  - intros Hall x y Hx Hy.
    assert (∀ z, z ∈ s0 :: d → z = s0) as Hs0
      by (intros z [->|Hz]%elem_of_cons; [done|by apply Hall]).
    by rewrite (Hs0 x Hx), (Hs0 y Hy).
  - intros Hu x Hx. apply Hu; [by right|by left].
Qed.

Lemma scan_groups_first_annotation (d : list SbpParallel) : ∀ cur merges p,
  head cur = Some p →
  group_annotations (scan_groups cur merges d) !! 0%nat = Some p.
Proof.
  unfold group_annotations.
  induction d as [|s d IH]; intros cur merges p Hcur.
  - simpl. by rewrite Hcur.
  - destruct merges as [|[] merges]; simpl; rewrite ?Hcur; try done.
    apply IH. by destruct cur.
Qed.

Lemma reduced_distribution_first (merges : list bool) (d : list SbpParallel) :
  reduced_distribution merges d !! 0%nat = d !! 0%nat.
Proof.
  destruct d as [|s0 d]; [done|]. unfold reduced_distribution. simpl.
  by apply scan_groups_first_annotation.
Qed.

Lemma reduced_hierarchy_rank (merges : list bool) (h : list Z) :
  S (length merges) = length h →
  NumAxes (reduced_hierarchy merges h) = S (refusals merges).
Proof.
  intros Hlen. unfold NumAxes, reduced_hierarchy.
  by rewrite length_fmap, axis_groups_length.
Qed.

Lemma well_formed_merges (pd : ParallelDesc) (d : list SbpParallel) :
  well_formed pd d →
  S (length (independent_merges d)) = length (hierarchy pd).
Proof.
  intros (Hne & Hlen & _). unfold NumAxes in *.
  destruct (independent_merges_length d) as [?| ->]; [lia|].
  simpl in Hlen. by destruct (hierarchy pd).
Qed.

Lemma well_formed_collaborative_merges (pd_in pd_out : ParallelDesc)
    (d_in d_out : list SbpParallel) :
  well_formed pd_in d_in → well_formed pd_out d_out →
  NumAxes (hierarchy pd_in) = NumAxes (hierarchy pd_out) →
  S (length (collaborative_merges d_in d_out)) = length (hierarchy pd_in)
  ∧ length (independent_merges d_in) = length (independent_merges d_out).
Proof.
  intros Hin Hout Hrank.
  pose proof (well_formed_merges _ _ Hin). pose proof (well_formed_merges _ _ Hout).
  unfold NumAxes in *. unfold collaborative_merges.
  rewrite length_zip_with. lia.
Qed.

(** What [InOutParallelAxesReduce] returns on well-formed input, by the
    decisions of the rule it applies. *)
Lemma InOutParallelAxesReduce_returns
    (pd_in pd_out : ParallelDesc) (d_in d_out : list SbpParallel) :
  well_formed pd_in d_in → well_formed pd_out d_out →
  ∃ m_in m_out,
    InOutParallelAxesReduce pd_in pd_out d_in d_out [] []
    = Returns (with_hierarchy pd_in (reduced_hierarchy m_in (hierarchy pd_in)),
               with_hierarchy pd_out (reduced_hierarchy m_out (hierarchy pd_out)),
               reduced_distribution m_in d_in, reduced_distribution m_out d_out)
    ∧ S (length m_in) = length (hierarchy pd_in)
    ∧ S (length m_out) = length (hierarchy pd_out)
    ∧ (Forall (λ b, b = true) m_in ∧ Forall (λ b, b = true) m_out
       ↔ uniform d_in ∧ uniform d_out)
    ∧ (refusals (independent_merges d_in) ≤ refusals m_in)%nat
    ∧ (refusals (independent_merges d_out) ≤ refusals m_out)%nat.
Proof.
  intros Hin Hout.
  pose proof (well_formed_merges _ _ Hin) as Hm_in.
  pose proof (well_formed_merges _ _ Hout) as Hm_out.
  pose proof Hin as (Hne & Hlen & Hrange).
  pose proof Hout as (Hne' & Hlen' & Hrange').
  unfold InOutParallelAxesReduce. case_decide as Hone.
  - exists (independent_merges d_in), (independent_merges d_out).
    destruct Hone as [H1 H1']. unfold NumAxes in *.
    rewrite H1 in Hm_in, Hlen. rewrite H1' in Hm_out, Hlen'.
    split; [|rewrite !independent_merges_all_true; split; [lia|]; split; [lia|];
             split; [tauto|lia]].
    assert (independent_merges d_in = []) as ->
      by (by destruct (independent_merges d_in)).
    assert (independent_merges d_out = []) as ->
      by (by destruct (independent_merges d_out)).
    rewrite !reduced_hierarchy_irreducible, !reduced_distribution_irreducible,
      !with_hierarchy_same; (done || by constructor).
  - case_decide as Hrank.
    + exists (independent_merges d_in), (independent_merges d_out).
      rewrite !ParallelAxesReduce_returns by done. rewrite !bind_Returns.
      rewrite !independent_merges_all_true.
      split; [done|]. split; [lia|]. split; [lia|]. split; [tauto|lia].
    + assert (NumAxes (hierarchy pd_in) = NumAxes (hierarchy pd_out)) as Heq
        by (by destruct (decide (NumAxes (hierarchy pd_in)
                                 = NumAxes (hierarchy pd_out)))).
      destruct (well_formed_collaborative_merges _ _ _ _ Hin Hout Heq)
        as [Hc Hmm].
      exists (collaborative_merges d_in d_out), (collaborative_merges d_in d_out).
      rewrite CollaborativeParallelAxesReduce_returns by done.
      unfold NumAxes in *.
      split; [done|]. split; [done|]. split; [lia|].
      unfold collaborative_merges at 1 2.
      rewrite Forall_true_zip_with_andb, !independent_merges_all_true by done.
      split; [tauto|].
      by apply refusals_zip_with_andb.
Qed.

Lemma scan_groups_all_true {A : Type} (rest : list A) : ∀ (cur : list A) merges,
  length merges = length rest → Forall (λ b, b = true) merges →
  scan_groups cur merges rest = [cur ++ rest].
Proof.
  induction rest as [|a rest IH]; intros cur [|b merges] Hlen Hall; try done.
  { by rewrite app_nil_r. }
  injection Hlen as Hlen. apply Forall_cons in Hall as [-> Hall]. simpl.
  rewrite IH by done. by rewrite <- app_assoc.
Qed.

(** X6: on well-formed input [InOutParallelAxesReduce] comes back with
    pairs that are well-formed again (a rank of at least 1, one annotation
    per axis), and no side has more axes than it had. *)
Theorem InOutParallelAxesReduce_keeps_contract
    (pd_in pd_out : ParallelDesc) (d_in d_out : list SbpParallel) :
  well_formed pd_in d_in → well_formed pd_out d_out →
  ∃ pd_in' pd_out' d_in' d_out',
    InOutParallelAxesReduce pd_in pd_out d_in d_out [] []
    = Returns (pd_in', pd_out', d_in', d_out')
    ∧ well_formed pd_in' d_in' ∧ well_formed pd_out' d_out'
    ∧ (1 ≤ NumAxes (hierarchy pd_in') ≤ NumAxes (hierarchy pd_in))%nat
    ∧ (1 ≤ NumAxes (hierarchy pd_out') ≤ NumAxes (hierarchy pd_out))%nat.
Proof.
  intros Hin Hout.
  destruct (InOutParallelAxesReduce_returns pd_in pd_out d_in d_out Hin Hout)
    as (m_in & m_out & Hret & Hm_in & Hm_out & _).
  eexists _, _, _, _. split; [exact Hret|].
  split; [by apply reduced_well_formed|]. split; [by apply reduced_well_formed|].
  rewrite !hierarchy_with_hierarchy, !reduced_hierarchy_rank by done.
  pose proof (refusals_le m_in). pose proof (refusals_le m_out).
  unfold NumAxes. lia.
Qed.

(** X7: independent reduction leaves nothing to merge: no two
    neighbouring axes of its result carry the same annotation. *)
Theorem ParallelAxesReduce_neighbours_differ
    (pd : ParallelDesc) (d : list SbpParallel) :
  well_formed pd d →
  ∃ pd' d',
    ParallelAxesReduce pd d [] = Returns (pd', d')
    ∧ ∀ (i : nat) x y, d' !! i = Some x → d' !! S i = Some y → x ≠ y.
Proof.
  intros (Hne & Hlen & Hrange). eexists _, _.
  split; [by apply ParallelAxesReduce_returns|].
  intros i x y Hx Hy Heq. simpl in Hx, Hy.
  pose proof (independent_reduced_irreducible d) as Hirr.
  pose proof (independent_merges_lookup
                (reduced_distribution (independent_merges d) d) (S i) x y) as Hm.
  simpl in Hm. rewrite Nat.sub_0_r in Hm. specialize (Hm ltac:(lia) Hx Hy).
  eapply Forall_lookup_1 in Hirr; [|exact Hm].
  by apply bool_decide_eq_false_1 in Hirr.
Qed.

(** X8: the rank independent reduction returns is one more than the
    number of axes whose annotation differs from that of the axis before;
    it is 1 exactly when all axes carry the same annotation, and then the
    single axis has the whole device count and that annotation. *)
Theorem ParallelAxesReduce_rank (pd : ParallelDesc) (d : list SbpParallel) :
  well_formed pd d →
  ∃ pd' d',
    ParallelAxesReduce pd d [] = Returns (pd', d')
    ∧ NumAxes (hierarchy pd') = S (refusals (independent_merges d))
    ∧ (NumAxes (hierarchy pd') = 1%nat ↔ uniform d)
    ∧ (uniform d → hierarchy pd' = [elem_cnt (hierarchy pd)] ∧ d' = take 1 d).
Proof.
  intros Hwf. pose proof (well_formed_merges _ _ Hwf) as Hm.
  pose proof Hwf as (Hne & Hlen & Hrange). eexists _, _.
  split; [by apply ParallelAxesReduce_returns|].
  fold (reduced_hierarchy (independent_merges d) (hierarchy pd)).
  fold (with_hierarchy pd (reduced_hierarchy (independent_merges d) (hierarchy pd))).
  rewrite hierarchy_with_hierarchy, reduced_hierarchy_rank by done.
  split; [done|]. split.
  - rewrite <- independent_merges_all_true, <- refusals_0. lia.
  - intros Hu%independent_merges_all_true. unfold NumAxes in *.
    unfold reduced_hierarchy.
    destruct (hierarchy pd) as [|h0 h]; [done|]. destruct d as [|s0 d]; [done|].
    simpl in *. rewrite take_0.
    rewrite (scan_groups_all_true h [h0]), (scan_groups_all_true d [s0])
      by (done || lia || by rewrite same_as_previous_length).
    done.
Qed.

(** X9: collaborative reduction never merges more than independent
    reduction: on each side it leaves at least as many axes. *)
Theorem CollaborativeParallelAxesReduce_merges_no_more
    (pd_in pd_out : ParallelDesc) (d_in d_out : list SbpParallel) :
  well_formed pd_in d_in → well_formed pd_out d_out →
  NumAxes (hierarchy pd_in) = NumAxes (hierarchy pd_out) →
  ∃ pd_in1 d_in1 pd_out1 d_out1 pd_in2 pd_out2 d_in2 d_out2,
    ParallelAxesReduce pd_in d_in [] = Returns (pd_in1, d_in1)
    ∧ ParallelAxesReduce pd_out d_out [] = Returns (pd_out1, d_out1)
    ∧ CollaborativeParallelAxesReduce pd_in pd_out d_in d_out [] []
      = Returns (pd_in2, pd_out2, d_in2, d_out2)
    ∧ (NumAxes (hierarchy pd_in1) ≤ NumAxes (hierarchy pd_in2))%nat
    ∧ (NumAxes (hierarchy pd_out1) ≤ NumAxes (hierarchy pd_out2))%nat.
Proof.
  intros Hin Hout Hrank.
  pose proof (well_formed_merges _ _ Hin) as Hm_in.
  pose proof (well_formed_merges _ _ Hout) as Hm_out.
  destruct (well_formed_collaborative_merges _ _ _ _ Hin Hout Hrank) as [Hc Hmm].
  pose proof Hin as (Hne & Hlen & Hrange).
  pose proof Hout as (Hne' & Hlen' & Hrange').
  eexists _, _, _, _, _, _, _, _.
  split; [by apply ParallelAxesReduce_returns|].
  split; [by apply ParallelAxesReduce_returns|].
  split; [by apply CollaborativeParallelAxesReduce_returns|].
  change (hierarchy (mkParallelDesc (set_hierarchy ?c ?h))) with h.
  fold (reduced_hierarchy (independent_merges d_in) (hierarchy pd_in)).
  fold (reduced_hierarchy (independent_merges d_out) (hierarchy pd_out)).
  fold (reduced_hierarchy (collaborative_merges d_in d_out) (hierarchy pd_in)).
  fold (reduced_hierarchy (collaborative_merges d_in d_out) (hierarchy pd_out)).
  unfold NumAxes in Hrank.
  rewrite !reduced_hierarchy_rank by lia.
  destruct (refusals_zip_with_andb _ _ Hmm). unfold collaborative_merges. lia.
Qed.

(** ** The out-parameters of the reducers *)

Lemma CollaborativeParallelAxesReduce_prefix
    (pd_in pd_out : ParallelDesc) (d_in d_out rd re : list SbpParallel) :
  CollaborativeParallelAxesReduce pd_in pd_out d_in d_out rd re
  = '(pd_in', pd_out', d_in', d_out') ←
      CollaborativeParallelAxesReduce pd_in pd_out d_in d_out [] [];
    Returns (pd_in', pd_out', rd ++ d_in', re ++ d_out').
Proof.
  destruct (decide (NumAxes (hierarchy pd_in) = NumAxes (hierarchy pd_out)))
    as [Hrank|Hrank];
    [|unfold CollaborativeParallelAxesReduce; by rewrite !decide_False].
  rewrite !CollaborativeParallelAxesReduce_unfold by done.
  destruct (At (hierarchy pd_in) 0) as [h0| |]; [|done..].
  destruct (sbp_parallel d_in 0) as [s0| |]; [|done..]. rewrite !bind_Returns.
  destruct (At (hierarchy pd_out) 0) as [g0| |]; [|done..].
  destruct (sbp_parallel d_out 0) as [t0| |]; [|done..]. rewrite !bind_Returns.
  change ([] ++ [s0]) with [s0]. change ([] ++ [t0]) with [t0].
  assert (Hstep : ∀ (i : nat)
                    (st : list Z * list Z * list SbpParallel * list SbpParallel),
    CollaborativeParallelAxesReduce_step (hierarchy pd_in) (hierarchy pd_out)
      d_in d_out i (st.1.1.1, st.1.1.2, rd ++ st.1.2, re ++ st.2)
    = st' ← CollaborativeParallelAxesReduce_step (hierarchy pd_in)
              (hierarchy pd_out) d_in d_out i st;
      Returns (st'.1.1.1, st'.1.1.2, rd ++ st'.1.2, re ++ st'.2)).
  { intros i [[[v w] r] r']. unfold CollaborativeParallelAxesReduce_step.
    cbn [fst snd].
    destruct (sbp_parallel d_in i) as [s| |]; [|done..].
    destruct (sbp_parallel d_in (i - 1)); [|done..]. rewrite !bind_Returns.
    assert (Hpush :
      (in_h_i ← At (hierarchy pd_in) i;
       in_s_i' ← Returns s;
       out_h_i ← At (hierarchy pd_out) i;
       out_s_i' ← sbp_parallel d_out i;
       Returns (push_back v in_h_i, push_back w out_h_i,
                add_sbp_parallel (rd ++ r) in_s_i',
                add_sbp_parallel (re ++ r') out_s_i'))
      = st' ← (in_h_i ← At (hierarchy pd_in) i;
               in_s_i' ← Returns s;
               out_h_i ← At (hierarchy pd_out) i;
               out_s_i' ← sbp_parallel d_out i;
               Returns (push_back v in_h_i, push_back w out_h_i,
                        add_sbp_parallel r in_s_i',
                        add_sbp_parallel r' out_s_i'));
        Returns (st'.1.1.1, st'.1.1.2, rd ++ st'.1.2, re ++ st'.2)).
    { destruct (At (hierarchy pd_in) i); [|done..]. rewrite !bind_Returns.
      destruct (At (hierarchy pd_out) i); [|done..]. rewrite !bind_Returns.
      destruct (sbp_parallel d_out i); [|done..]. rewrite !bind_Returns.
      cbn [fst snd]. unfold add_sbp_parallel. by rewrite <- !app_assoc. }
    case_decide; [|exact Hpush].
    destruct (sbp_parallel d_out i) as [t| |] eqn:Ht; [|done..].
    destruct (sbp_parallel d_out (i - 1)); [|done..]. rewrite !bind_Returns.
    case_decide; [|exact Hpush].
    destruct (At (hierarchy pd_in) i); [|done..]. rewrite !bind_Returns.
    by destruct (At (hierarchy pd_out) i). }
  pose proof (for_loop_commute
    (λ st : list Z * list Z * list SbpParallel * list SbpParallel,
       (st.1.1.1, st.1.1.2, rd ++ st.1.2, re ++ st.2))
    (CollaborativeParallelAxesReduce_step (hierarchy pd_in) (hierarchy pd_out)
       d_in d_out)
    (NumAxes (hierarchy pd_in) - 1) Hstep 1%nat ([h0], [g0], [s0], [t0])) as Hc.
  cbn [fst snd] in Hc. rewrite Hc.
  by destruct (for_loop _ _ _ ([h0], [g0], [s0], [t0])) as [[[[v w] r] r']| |].
Qed.

(** X10: what is in the return distributions when
    [InOutParallelAxesReduce] is called matters in two different ways:
    for two hierarchies of rank 1 it is overwritten by a copy of the input
    distributions, in every other case it stays in front of the reduced
    annotations. *)
Theorem InOutParallelAxesReduce_out_parameters
    (pd_in pd_out : ParallelDesc) (d_in d_out rd re : list SbpParallel) :
  InOutParallelAxesReduce pd_in pd_out d_in d_out rd re
  = if decide (NumAxes (hierarchy pd_in) = 1%nat
               ∧ NumAxes (hierarchy pd_out) = 1%nat)
    then Returns (pd_in, pd_out, d_in, d_out)
    else
      '(pd_in', pd_out', d_in', d_out') ←
        InOutParallelAxesReduce pd_in pd_out d_in d_out [] [];
      Returns (pd_in', pd_out', rd ++ d_in', re ++ d_out').
Proof.
  unfold InOutParallelAxesReduce. case_decide; [done|]. case_decide.
  - rewrite (ParallelAxesReduce_prefix pd_in d_in rd),
      (ParallelAxesReduce_prefix pd_out d_out re).
    destruct (ParallelAxesReduce pd_in d_in []) as [[a c]| |]; [|done..].
    rewrite !bind_Returns.
    by destruct (ParallelAxesReduce pd_out d_out []) as [[b e]| |].
  - apply CollaborativeParallelAxesReduce_prefix.
Qed.

(** X11: collaborative reduction treats the two sides alike: exchanging
    producer and consumer exchanges the two halves of the result. *)
Theorem CollaborativeParallelAxesReduce_symmetric
    (pd_in pd_out : ParallelDesc) (d_in d_out : list SbpParallel) :
  well_formed pd_in d_in → well_formed pd_out d_out →
  NumAxes (hierarchy pd_in) = NumAxes (hierarchy pd_out) →
  ∃ pd_in' pd_out' d_in' d_out',
    CollaborativeParallelAxesReduce pd_in pd_out d_in d_out [] []
    = Returns (pd_in', pd_out', d_in', d_out')
    ∧ CollaborativeParallelAxesReduce pd_out pd_in d_out d_in [] []
      = Returns (pd_out', pd_in', d_out', d_in').
Proof.
  intros (Hne & Hlen & Hrange) (Hne' & Hlen' & Hrange') Hrank.
  eexists _, _, _, _.
  split; [by apply CollaborativeParallelAxesReduce_returns|].
  rewrite CollaborativeParallelAxesReduce_returns by done.
  assert (collaborative_merges d_out d_in = collaborative_merges d_in d_out) as ->;
    [|done].
  unfold collaborative_merges.
  generalize (independent_merges d_in) (independent_merges d_out). clear.
  intros m1. induction m1 as [|b1 m1 IH]; intros [|b2 m2]; try done.
  cbn [zip_with]. by rewrite IH, andb_comm.
Qed.

(** ** What the hierarchical builder supports *)

Section Build_support.
Context {Graph SubTskGphBuilderStatus TaskNodes LogicalBlobId BlobDesc : Type}.
Implicit Types
  (virtual_Build :
     SubTskGphBuilder → @BuildArgs TaskNodes LogicalBlobId BlobDesc → Graph →
     outcome SubTskGphBuilderStatus * Graph)
  (UNIMPLEMENTED : outcome unit) (this : HierarchicalSubTskGphBuilder)
  (g : Graph).

(** X12: on well-formed input [Build] hands the edge to the chain exactly
    when the producer's annotations are the same on all axes and so are
    the consumer's; the chain then gets the placements as given and the
    two annotations.  For every other pair of distributions it runs into
    the [UNIMPLEMENTED()] statement without calling a builder. *)
Theorem Build_supports_uniform_distributions virtual_Build UNIMPLEMENTED this
    sorted_in_tasks pd_in pd_out lbi logical_blob_desc d_in d_out time_shape g :
  well_formed pd_in d_in → well_formed pd_out d_out →
  (uniform d_in ∧ uniform d_out →
   ∃ s_in s_out,
     d_in !! 0%nat = Some s_in ∧ d_out !! 0%nat = Some s_out
     ∧ Build virtual_Build UNIMPLEMENTED this sorted_in_tasks pd_in pd_out lbi
         logical_blob_desc d_in d_out time_shape g
       = virtual_Build (sub_tsk_gph_builder_ this)
           {| arg_sorted_in_tasks := sorted_in_tasks;
              arg_in_parallel_desc := pd_in;
              arg_out_parallel_desc := pd_out;
              arg_lbi := lbi;
              arg_logical_blob_desc := logical_blob_desc;
              arg_in_sbp_parallel := s_in;
              arg_out_sbp_parallel := s_out;
              arg_time_shape := time_shape |} g)
  ∧ (¬ (uniform d_in ∧ uniform d_out) →
     Build virtual_Build UNIMPLEMENTED this sorted_in_tasks pd_in pd_out lbi
       logical_blob_desc d_in d_out time_shape g
     = (match UNIMPLEMENTED with
        | Returns _ => MaybeError BoxingNotSupportedError
        | MaybeError e => MaybeError e
        | Aborts f => Aborts f
        end, g)).
Proof.
  intros Hin Hout.
  destruct (InOutParallelAxesReduce_returns pd_in pd_out d_in d_out Hin Hout)
    as (m_in & m_out & Hret & Hm_in & Hm_out & Huni & _).
  assert (Hranks :
    NumAxes (hierarchy
               (with_hierarchy pd_in (reduced_hierarchy m_in (hierarchy pd_in))))
    = 1%nat
    ∧ NumAxes (hierarchy
                 (with_hierarchy pd_out (reduced_hierarchy m_out (hierarchy pd_out))))
      = 1%nat
    ↔ uniform d_in ∧ uniform d_out).
  { rewrite !hierarchy_with_hierarchy, !reduced_hierarchy_rank by done.
    rewrite <- Huni, <- !refusals_0. lia. }
  destruct Hin as (Hne & Hlen & _). destruct Hout as (Hne' & Hlen' & _).
  unfold NumAxes in Hlen, Hlen'. split.
  - intros Hu. apply Hranks in Hu as [Hr Hr'].
    destruct d_in as [|s_in d_in]; [by destruct (hierarchy pd_in)|].
    destruct d_out as [|s_out d_out]; [by destruct (hierarchy pd_out)|].
    exists s_in, s_out. split; [done|]. split; [done|].
    apply (Build_rank1 _ _ _ _ _ _ _ _ _ _ _ _ _ _ _ _ _ _ Hret Hr Hr');
      by rewrite reduced_distribution_first.
  - intros Hno. apply (Build_rank_above_1 _ _ _ _ _ _ _ _ _ _ _ _ _ _ _ _ Hret).
    by rewrite Hranks.
Qed.


End Build_support.

(** ** More on the actor *)

Section Actor_more.
Context {World Blob : Type}.
Implicit Types
  (GetKernelFromOpName : string → @Actor.Kernel World Blob)
  (GetRegstFromRegstDescId : N → @Actor.Regst Blob)
  (w : World).

(** X14: [Init] does not clear the bindings: a second [Init] keeps those
    of the first and appends its own behind them, while the identifier and
    the entry point become those of the second task. *)
Theorem Init_twice_accumulates GetKernelFromOpName (this : Actor.Actor)
    (task_proto1 task_proto2 : Actor.TaskProto) :
  Actor.Init GetKernelFromOpName
    (Actor.Init GetKernelFromOpName this task_proto1) task_proto2
  = Actor.mkActor (Actor.id task_proto2)
      (if Actor.is_forward task_proto2 then Actor.Kernel_Forward
       else Actor.Kernel_Backward)
      (Actor.exec_kernel_vec_ this
       ++ ((λ node,
              Actor.mkExecKernel (GetKernelFromOpName (Actor.op_name node))
                (Actor.node_bn_in_op2regst_desc_id node))
           <$> Actor.exec_sequence task_proto1)
       ++ ((λ node,
              Actor.mkExecKernel (GetKernelFromOpName (Actor.op_name node))
                (Actor.node_bn_in_op2regst_desc_id node))
           <$> Actor.exec_sequence task_proto2)).
Proof.
  unfold Actor.Init. cbn [Actor.exec_kernel_vec_].
  rewrite !Init_exec_nodes_app. by rewrite <- app_assoc.
Qed.

(** X15: [WardKernel] does not catch anything: when the bindings before
    one have come back and that one's kernel does not, the call ends the
    way this kernel ended, and no binding behind it is invoked. *)
Theorem WardKernel_stops_at_first_failure GetRegstFromRegstDescId
    actor_id ward_func eks1 ek eks2 w w1 (o : outcome World) :
  Actor.WardKernel (Actor.mkActor actor_id ward_func eks1)
    GetRegstFromRegstDescId w = Returns w1 →
  Actor.invoke (Actor.kernel ek) ward_func
    (Actor.WardKernel_lambda ek GetRegstFromRegstDescId) w1 = o →
  ¬ returned o →
  Actor.WardKernel (Actor.mkActor actor_id ward_func (eks1 ++ ek :: eks2))
    GetRegstFromRegstDescId w = o.
Proof.
  unfold Actor.WardKernel. cbn [Actor.ward_func_ Actor.exec_kernel_vec_].
  intros Hbefore Hek Hfail. rewrite WardKernel_loop_app, Hbefore, bind_Returns.
  cbn [Actor.WardKernel_loop]. rewrite Hek. by destruct o.
Qed.

End Actor_more.

(** X16: after a second [Init] the bindings of the first task run again,
    in front of those of the second and through the entry point of the
    second: with recording kernels the world reads so. *)
Theorem WardKernel_after_second_Init {Blob : Type}
    (GetRegstFromRegstDescId : N → @Actor.Regst Blob)
    actor_id ward_func (task_proto1 task_proto2 : Actor.TaskProto) :
  Actor.WardKernel
    (Actor.Init recording_kernel
       (Actor.Init recording_kernel (Actor.mkActor actor_id ward_func [])
          task_proto1)
       task_proto2)
    GetRegstFromRegstDescId []
  = Returns
      ((λ node,
          (Actor.op_name node,
           if Actor.is_forward task_proto2 then Actor.Kernel_Forward
           else Actor.Kernel_Backward))
       <$> (Actor.exec_sequence task_proto1 ++ Actor.exec_sequence task_proto2)).
Proof.
  unfold Actor.WardKernel, Actor.Init.
  cbn [Actor.ward_func_ Actor.exec_kernel_vec_].
  rewrite !Init_exec_nodes_app. cbn [app]. rewrite <- fmap_app.
  by rewrite WardKernel_loop_recording.
Qed.

(** ** The names of outlined functions *)

Lemma wrap64_add_l x y : wrap64 (wrap64 x + y) = wrap64 (x + y).
Proof.
  unfold wrap64. f_equal.
  rewrite (Z.mod_eq (x + 2 ^ 63) (2 ^ 64)) by lia.
  replace (x + 2 ^ 63 - 2 ^ 64 * ((x + 2 ^ 63) `div` 2 ^ 64) - 2 ^ 63 + y + 2 ^ 63)
    with (x + y + 2 ^ 63 + (- ((x + 2 ^ 63) `div` 2 ^ 64)) * 2 ^ 64) by lia.
  apply Z_mod_plus_full.
Qed.

Lemma wrap64_eq_inv x y :
  wrap64 x = wrap64 y → 0 ≤ x < 2 ^ 64 → 0 ≤ y < 2 ^ 64 → x = y.
Proof.
  unfold wrap64. intros Heq Hx Hy.
  assert ((x + 2 ^ 63) `mod` 2 ^ 64 = (y + 2 ^ 63) `mod` 2 ^ 64) as Hmod by lia.
  rewrite (Z.mod_eq (x + 2 ^ 63)), (Z.mod_eq (y + 2 ^ 63)) in Hmod by lia.
  assert ((x + 2 ^ 63) `div` 2 ^ 64 = 0 ∨ (x + 2 ^ 63) `div` 2 ^ 64 = 1) as Hqx.
  { pose proof (Z.div_le_mono (x + 2 ^ 63) (2 ^ 64 + 2 ^ 63 - 1) (2 ^ 64)
                  ltac:(lia) ltac:(lia)) as Hup.
    pose proof (Z.div_pos (x + 2 ^ 63) (2 ^ 64) ltac:(lia) ltac:(lia)).
    replace ((2 ^ 64 + 2 ^ 63 - 1) `div` 2 ^ 64) with 1 in Hup by done. lia. }
  assert ((y + 2 ^ 63) `div` 2 ^ 64 = 0 ∨ (y + 2 ^ 63) `div` 2 ^ 64 = 1) as Hqy.
  { pose proof (Z.div_le_mono (y + 2 ^ 63) (2 ^ 64 + 2 ^ 63 - 1) (2 ^ 64)
                  ltac:(lia) ltac:(lia)) as Hup.
    pose proof (Z.div_pos (y + 2 ^ 63) (2 ^ 64) ltac:(lia) ltac:(lia)).
    replace ((2 ^ 64 + 2 ^ 63 - 1) `div` 2 ^ 64) with 1 in Hup by done. lia. }
  pose proof (Z.mod_pos_bound (x + 2 ^ 63) (2 ^ 64) ltac:(lia)) as Hbx.
  pose proof (Z.mod_pos_bound (y + 2 ^ 63) (2 ^ 64) ltac:(lia)) as Hby.
  rewrite (Z.mod_eq (x + 2 ^ 63)) in Hbx by lia.
  rewrite (Z.mod_eq (y + 2 ^ 63)) in Hby by lia.
  destruct Hqx as [Hqx|Hqx], Hqy as [Hqy|Hqy]; rewrite Hqx, Hqy in *; lia.
Qed.

Lemma next_names_from (n : nat) : ∀ c : Z,
  JIT.next_names n (wrap64 c)
  = ((λ k : nat, JIT.JITOpNamePrefix +:+ pretty (wrap64 (c + Z.of_nat k))) <$> seq 0 n,
     wrap64 (c + Z.of_nat n)).
Proof.
  induction n as [|n IH]; intros c.
  - simpl. by rewrite Z.add_0_r.
  - cbn [JIT.next_names]. unfold JIT.next_name, JIT.getCountJITFunction.
    rewrite wrap64_add_l, IH. cbn [seq fmap list_fmap]. f_equal.
    + f_equal; [by rewrite Z.add_0_r|].
      rewrite <- seq_shift, <- list_fmap_compose. apply list_fmap_ext.
      intros i k _. simpl. do 3 f_equal. lia.
    + f_equal. lia.
Qed.

(** X17: the counter hands out each number once: the names made for the
    first [n] outlined functions, before they are sanitized, are pairwise
    different as long as [n] is at most 2^64, and up to 2^63 functions the
    [k]-th name is the prefix followed by [k] in decimal. *)
Theorem next_names_distinct (n : nat) :
  Z.of_nat n ≤ 2 ^ 64 →
  NoDup (JIT.next_names n JIT.countJITFunction_init).1
  ∧ ∀ k : nat, (k < n)%nat → Z.of_nat k < 2 ^ 63 →
      (JIT.next_names n JIT.countJITFunction_init).1 !! k
      = Some (JIT.JITOpNamePrefix +:+ pretty (Z.of_nat k)).
Proof.
  intros Hn. change JIT.countJITFunction_init with (wrap64 0).
  rewrite next_names_from. cbn [fst]. split.
  - apply NoDup_fmap_2_strong; [|apply NoDup_seq].
    intros i j Hi Hj Heq. apply elem_of_seq in Hi, Hj.
    apply (inj (String.app JIT.JITOpNamePrefix)), (inj pretty) in Heq.
    apply wrap64_eq_inv in Heq; lia.
  - intros k Hk Hsmall. rewrite list_lookup_fmap, lookup_seq_lt by done.
    simpl. do 3 f_equal. apply wrap64_in_int64.
    unfold in_int64, INT64_MIN, INT64_MAX. lia.
Qed.

(** ** The further properties at concrete inputs *)

Lemma InOutParallelAxesReduce_keeps_contract_witness :
  well_formed grid_2x3x4 [S0; S0; B] ∧ well_formed grid_2x2 [S0; B]
  ∧ ∃ pd_in' pd_out' d_in' d_out',
      InOutParallelAxesReduce grid_2x3x4 grid_2x2 [S0; S0; B] [S0; B] [] []
      = Returns (pd_in', pd_out', d_in', d_out')
      ∧ well_formed pd_in' d_in' ∧ well_formed pd_out' d_out'
      ∧ (1 ≤ NumAxes (hierarchy pd_in') ≤ NumAxes (hierarchy grid_2x3x4))%nat
      ∧ (1 ≤ NumAxes (hierarchy pd_out') ≤ NumAxes (hierarchy grid_2x2))%nat.
Proof.
  split; [by apply grid_2x3x4_well_formed|].
  split; [by apply grid_2x2_well_formed|].
  apply InOutParallelAxesReduce_keeps_contract;
    [by apply grid_2x3x4_well_formed|by apply grid_2x2_well_formed].
Defined.

Lemma ParallelAxesReduce_neighbours_differ_witness :
  well_formed grid_2x3x4 [S0; S0; B]
  ∧ ∃ pd' d',
      ParallelAxesReduce grid_2x3x4 [S0; S0; B] [] = Returns (pd', d')
      ∧ ∀ (i : nat) x y, d' !! i = Some x → d' !! S i = Some y → x ≠ y.
Proof.
  split; [by apply grid_2x3x4_well_formed|].
  apply ParallelAxesReduce_neighbours_differ. by apply grid_2x3x4_well_formed.
Defined.

Lemma ParallelAxesReduce_rank_witness :
  well_formed grid_2x2 [S0; S0]
  ∧ ∃ pd' d',
      ParallelAxesReduce grid_2x2 [S0; S0] [] = Returns (pd', d')
      ∧ NumAxes (hierarchy pd') = 1%nat
      ∧ (NumAxes (hierarchy pd') = 1%nat ↔ uniform [S0; S0])
      ∧ (uniform [S0; S0] → hierarchy pd' = [4] ∧ d' = [S0]).
Proof.
  split; [by apply grid_2x2_well_formed|].
  apply (ParallelAxesReduce_rank grid_2x2 [S0; S0]).
  by apply grid_2x2_well_formed.
Defined.

Lemma CollaborativeParallelAxesReduce_merges_no_more_witness :
  well_formed grid_2x2 [S0; S0] ∧ well_formed grid_2x2 [S0; B]
  ∧ NumAxes (hierarchy grid_2x2) = NumAxes (hierarchy grid_2x2)
  ∧ ∃ pd_in1 d_in1 pd_out1 d_out1 pd_in2 pd_out2 d_in2 d_out2,
      ParallelAxesReduce grid_2x2 [S0; S0] [] = Returns (pd_in1, d_in1)
      ∧ ParallelAxesReduce grid_2x2 [S0; B] [] = Returns (pd_out1, d_out1)
      ∧ CollaborativeParallelAxesReduce grid_2x2 grid_2x2 [S0; S0] [S0; B] [] []
        = Returns (pd_in2, pd_out2, d_in2, d_out2)
      ∧ (NumAxes (hierarchy pd_in1) ≤ NumAxes (hierarchy pd_in2))%nat
      ∧ (NumAxes (hierarchy pd_out1) ≤ NumAxes (hierarchy pd_out2))%nat.
Proof.
  split; [by apply grid_2x2_well_formed|].
  split; [by apply grid_2x2_well_formed|]. split; [reflexivity|].
  apply CollaborativeParallelAxesReduce_merges_no_more;
    [by apply grid_2x2_well_formed..|reflexivity].
Defined.

Lemma CollaborativeParallelAxesReduce_symmetric_witness :
  well_formed grid_2x3x4 [S0; S0; B] ∧ well_formed grid_2x3x4 [B; B; B]
  ∧ NumAxes (hierarchy grid_2x3x4) = NumAxes (hierarchy grid_2x3x4)
  ∧ ∃ pd_in' pd_out' d_in' d_out',
      CollaborativeParallelAxesReduce grid_2x3x4 grid_2x3x4
        [S0; S0; B] [B; B; B] [] []
      = Returns (pd_in', pd_out', d_in', d_out')
      ∧ CollaborativeParallelAxesReduce grid_2x3x4 grid_2x3x4
          [B; B; B] [S0; S0; B] [] []
        = Returns (pd_out', pd_in', d_out', d_in').
Proof.
  split; [by apply grid_2x3x4_well_formed|].
  split; [by apply grid_2x3x4_well_formed|]. split; [reflexivity|].
  apply CollaborativeParallelAxesReduce_symmetric;
    [by apply grid_2x3x4_well_formed..|reflexivity].
Defined.

Lemma Build_supports_uniform_distributions_witness :
  well_formed grid_2x2 [S0; S0] ∧ well_formed grid_2x2 [B; B]
  ∧ Build (Graph := list (SubTskGphBuilder * BuildArgs))
      (recording_Build ()) (Aborts LogFatal)
      (HierarchicalSubTskGphBuilder_new (mkResourceDesc false))
      () grid_2x2 grid_2x2 () () [S0; S0] [B; B] [] []
    = (Returns (),
       [(sub_tsk_gph_builder_
           (HierarchicalSubTskGphBuilder_new (mkResourceDesc false)),
         {| arg_sorted_in_tasks := ();
            arg_in_parallel_desc := grid_2x2;
            arg_out_parallel_desc := grid_2x2;
            arg_lbi := ();
            arg_logical_blob_desc := ();
            arg_in_sbp_parallel := S0;
            arg_out_sbp_parallel := B;
            arg_time_shape := [] |})]).
Proof.
  split; [by apply grid_2x2_well_formed|].
  split; [by apply grid_2x2_well_formed|].
  destruct (Build_supports_uniform_distributions
              (Graph := list (SubTskGphBuilder * BuildArgs))
              (recording_Build ()) (Aborts LogFatal)
              (HierarchicalSubTskGphBuilder_new (mkResourceDesc false))
              () grid_2x2 grid_2x2 () () [S0; S0] [B; B] [] [])
    as [Hyes _]; [by apply grid_2x2_well_formed..|].
  destruct Hyes as (s_in & s_out & Hs_in & Hs_out & Hbuild).
  - split; intros x y Hx Hy;
      repeat (apply elem_of_cons in Hx as [->|Hx]);
      repeat (apply elem_of_cons in Hy as [->|Hy]);
      try reflexivity; by apply elem_of_nil in Hx || by apply elem_of_nil in Hy.
  - injection Hs_in as <-. injection Hs_out as <-. exact Hbuild.
Defined.


Lemma WardKernel_stops_at_first_failure_witness :
  Actor.WardKernel
    (Actor.mkActor 0 Actor.Kernel_Forward
       [Actor.mkExecKernel (recording_kernel (Blob := ()) "first") ∅;
        Actor.mkExecKernel
          (Actor.mkKernel
             (λ BnInOp2BlobPtr w, _ ← BnInOp2BlobPtr "in"; Returns w)
             (λ BnInOp2BlobPtr w, _ ← BnInOp2BlobPtr "in"; Returns w)
             (λ bn_in_op, bn_in_op)) ∅;
        Actor.mkExecKernel (recording_kernel "last") ∅])
    (λ _, Actor.mkRegst (λ _, ())) []
  = Aborts OutOfRange.
Proof.
  apply (WardKernel_stops_at_first_failure (World := list (string * Actor.WardFunc))
           (λ _, Actor.mkRegst (λ _, ())) 0%N Actor.Kernel_Forward
           [Actor.mkExecKernel (recording_kernel (Blob := ()) "first") ∅]
           _ [Actor.mkExecKernel (recording_kernel "last") ∅]
           [] [("first", Actor.Kernel_Forward)] (Aborts OutOfRange));
    [reflexivity|reflexivity|intros []].
Defined.

Lemma next_names_distinct_witness :
  Z.of_nat 3 ≤ 2 ^ 64
  ∧ NoDup (JIT.next_names 3 JIT.countJITFunction_init).1
  ∧ (JIT.next_names 3 JIT.countJITFunction_init).1 !! 2%nat
    = Some (JIT.JITOpNamePrefix +:+ pretty 2).
Proof.
  assert (Hn : Z.of_nat 3 ≤ 2 ^ 64) by (by vm_compute).
  split; [exact Hn|]. destruct (next_names_distinct 3 Hn) as [Hnodup Hk].
  split; [exact Hnodup|]. apply (Hk 2%nat); [lia|by vm_compute].
Defined.
